(** * snyk-to-html: the data-transformation core of [src/lib/snyk-to-html.ts]

    A shallow embedding of the functions that turn parsed Snyk scan data
    into the render context of the HTML report, and of the Handlebars
    helper that derives the remediation text:

    - [metadataForVuln], [groupVulns]   (the vulnerability grouper)
    - [mergeData]                       (the multi-report merger)
    - [processData], [generateTemplate] (the pipeline orchestrator)
    - [runAsync], [run]                 (the invocation surface)
    - [getRemediation]                  (the remediation resolver)

    The program is dynamically typed ([any] throughout), so the embedding
    works on a datatype of JavaScript values and writes out the language
    rules the code relies on: truthiness, [||], [+], member access through
    the prototype chain of a plain object, and the [TypeError]s of member
    access on [undefined] and [null].  Thrown exceptions and rejected
    promises are the [Throw] case of an error monad. *)

From Stdlib Require Import String Ascii List ZArith Lia DecimalString Bool
  Permutation.
Import ListNotations.
Open Scope string_scope.
Open Scope Z_scope.

(** ** JavaScript values *)

(** Parsed JSON documents and the objects the program builds from them.
    - [VNum] is an integral number; scan counts and list lengths are
      integers in the range where JavaScript's number arithmetic is exact.
      [VNaN] is the not-a-number value that [undefined + n] produces.
    - [VObj] lists the own properties of a plain object in creation order;
      the order in which the language enumerates them is [ownKeys].
    - [VNative] is a built-in object reached through the prototype chain
      of a plain object (a method of [Object.prototype], the [Object]
      constructor, [Object.prototype] itself); it is named by the property
      that reaches it.  JSON never contains one. *)
#[warnings="-register-all"]
Inductive value : Type :=
| VUndefined
| VNull
| VBool (b : bool)
| VNum (n : Z)
| VNaN
| VStr (s : string)
| VArr (elems : list value)
| VObj (props : list (string * value))
| VNative (name : string).

(** What is thrown, or what a promise is rejected with.  [Unmodelled]
    marks the one step the value model cannot express (see [set]). *)
Inductive error : Type :=
| TypeError (msg : string)
| SyntaxError (msg : string)
| IOError (path : string)
| RenderError (msg : string)
| Unmodelled (what : string).

(** ** Exceptions: a small error monad *)

Inductive result (A : Type) : Type :=
| Ok (a : A)
| Throw (e : error).
Arguments Ok {A} a.
Arguments Throw {A} e.

Definition bind {A B : Type} (m : result A) (f : A -> result B) : result B :=
  match m with
  | Ok a => f a
  | Throw e => Throw e
  end.

Notation "x <- m ;; k" := (bind m (fun x => k))
  (at level 61, m at next level, right associativity).

(** A loop whose body may throw: [Array.prototype.map] and
    [Array.prototype.reduce] with a callback, run for the state. *)
Fixpoint foldM {A S : Type} (step : S -> A -> result S) (l : list A) (s : S)
  : result S :=
  match l with
  | [] => Ok s
  | a :: l' => s' <- step s a ;; foldM step l' s'
  end.

Fixpoint mapM {A B : Type} (f : A -> result B) (l : list A) : result (list B) :=
  match l with
  | [] => Ok []
  | a :: l' => b <- f a ;; bs <- mapM f l' ;; Ok (b :: bs)
  end.

(** ** Language rules *)

Definition nl : string := String (ascii_of_nat 10) "".

(** ToBoolean. *)
Definition truthy (v : value) : bool :=
  match v with
  | VUndefined | VNull | VNaN => false
  | VBool b => b
  | VNum n => negb (n =? 0)
  | VStr s => negb (s =? "")%string
  | VArr _ | VObj _ | VNative _ => true
  end.

(** [a || b]. *)
Definition js_or (a b : value) : value := if truthy a then a else b.

(** [Array.isArray]. *)
Definition isArray (v : value) : bool :=
  match v with
  | VArr _ => true
  | _ => false
  end.

(** Number::toString on an integral number. *)
Definition number_to_string (n : Z) : string :=
  NilZero.string_of_int (Z.to_int n).

(** Own properties of a plain object. *)
Fixpoint own_lookup (props : list (string * value)) (k : string) : option value :=
  match props with
  | [] => None
  | (k', v) :: rest => if (k' =? k)%string then Some v else own_lookup rest k
  end.

(** [obj[k] = v] on the own properties: an existing property keeps its
    place, a new one is created last. *)
Fixpoint own_set (props : list (string * value)) (k : string) (v : value)
  : list (string * value) :=
  match props with
  | [] => [(k, v)]
  | (k', v') :: rest =>
      if (k' =? k)%string then (k', v) :: rest else (k', v') :: own_set rest k v
  end.

(** The properties every plain object inherits from [Object.prototype]. *)
Definition object_prototype_names : list string :=
  [ "constructor"; "__defineGetter__"; "__defineSetter__"; "hasOwnProperty";
    "__lookupGetter__"; "__lookupSetter__"; "isPrototypeOf";
    "propertyIsEnumerable"; "toString"; "valueOf"; "__proto__";
    "toLocaleString" ]%string.

Definition inherited (k : string) : bool :=
  existsb (String.eqb k) object_prototype_names.

Definition object_prototype_get (k : string) : value :=
  if inherited k then VNative k else VUndefined.

(** ToString, with the [TypeError] of an object whose own [toString]
    property hides the inherited method (parsed data is never callable).
    An array prints its elements separated by [","], [undefined] and
    [null] elements as the empty string. *)
Definition join_with (sep : string) (elem : value -> result string)
  : list value -> result string :=
  fix go (l : list value) : result string :=
    match l with
    | [] => Ok ""%string
    | [x] => elem x
    | x :: rest => s <- elem x ;; r <- go rest ;; Ok (s ++ sep ++ r)%string
    end.

Fixpoint to_string (v : value) : result string :=
  match v with
  | VUndefined => Ok "undefined"%string
  | VNull => Ok "null"%string
  | VBool true => Ok "true"%string
  | VBool false => Ok "false"%string
  | VNum n => Ok (number_to_string n)
  | VNaN => Ok "NaN"%string
  | VStr s => Ok s
  | VArr elems =>
      join_with ","
        (fun x => match x with
                  | VUndefined | VNull => Ok ""%string
                  | _ => to_string x
                  end) elems
  | VObj props =>
      match own_lookup props "toString" with
      | Some _ => Throw (TypeError "Cannot convert object to primitive value")
      | None => Ok "[object Object]"%string
      end
  | VNative name =>
      if (name =? "__proto__")%string then Ok "[object Object]"%string
      else Ok ("function " ++ name ++ "() { [native code] }")%string
  end.

(** [Array.prototype.join(sep)]. *)
Definition join (sep : string) (elems : list value) : result string :=
  join_with sep
    (fun x => match x with
              | VUndefined | VNull => Ok ""%string
              | _ => to_string x
              end) elems.

(** ToPrimitive: arrays, objects and built-ins become their string. *)
Definition to_primitive (v : value) : result value :=
  match v with
  | VArr _ | VObj _ | VNative _ => s <- to_string v ;; Ok (VStr s)
  | _ => Ok v
  end.

(** ToNumber of a primitive that is not a string; [None] is NaN. *)
Definition to_number (v : value) : option Z :=
  match v with
  | VNull => Some 0
  | VBool true => Some 1
  | VBool false => Some 0
  | VNum n => Some n
  | _ => None
  end.

(** [a + b]: concatenation as soon as one operand's primitive is a
    string, numeric addition otherwise. *)
Definition js_add (a b : value) : result value :=
  pa <- to_primitive a ;;
  pb <- to_primitive b ;;
  match pa, pb with
  | VStr _, _ | _, VStr _ =>
      sa <- to_string pa ;; sb <- to_string pb ;; Ok (VStr (sa ++ sb))
  | _, _ =>
      match to_number pa, to_number pb with
      | Some x, Some y => Ok (VNum (x + y))
      | _, _ => Ok VNaN
      end
  end.

(** Decimal index of an array element or string character. *)
Fixpoint index_lookup {A : Type} (l : list A) (i : nat) (k : string) : option A :=
  match l with
  | [] => None
  | x :: rest =>
      if (number_to_string (Z.of_nat i) =? k)%string then Some x
      else index_lookup rest (Datatypes.S i) k
  end.

(** Member read [v.k] / [v[k]].  [undefined] and [null] have no
    members.  A plain object answers with its own property, then with
    [Object.prototype]'s.  Arrays and strings answer [length] and their
    indices.  The methods of [Array.prototype], [String.prototype] and
    the like are not read as data by the program (none of the member
    names it reads on parsed data names one); its method calls are
    embedded at their call sites ([push], [indexOf], [substring],
    [join], [concat]).  On a built-in the program reads [list] only,
    which none of them has; their own members ([name], [length],
    [prototype]) are not modelled. *)
Definition get (v : value) (k : string) : result value :=
  match v with
  | VUndefined =>
      Throw (TypeError ("Cannot read property '" ++ k ++ "' of undefined"))
  | VNull =>
      Throw (TypeError ("Cannot read property '" ++ k ++ "' of null"))
  | VObj props =>
      match own_lookup props k with
      | Some x => Ok x
      | None => Ok (object_prototype_get k)
      end
  | VArr elems =>
      if (k =? "length")%string then Ok (VNum (Z.of_nat (length elems)))
      else match index_lookup elems 0 k with
           | Some x => Ok x
           | None => Ok (object_prototype_get k)
           end
  | VStr s =>
      if (k =? "length")%string then Ok (VNum (Z.of_nat (String.length s)))
      else match index_lookup (list_ascii_of_string s) 0 k with
           | Some c => Ok (VStr (String c ""))
           | None => Ok (object_prototype_get k)
           end
  | VBool _ | VNum _ | VNaN | VNative _ => Ok (object_prototype_get k)
  end.

(** Member write [v.k = x] in strict-mode module code: a plain object
    gets or updates an own property, [undefined], [null] and the other
    primitives throw.  The program writes members of plain objects only;
    an array or a built-in that receives a named member is outside the
    value model and never arises ([processData] sends every array through
    [mergeData], which returns a plain object, and the grouper writes to
    the objects it created). *)
Definition set (v : value) (k : string) (x : value) : result value :=
  match v with
  | VObj props => Ok (VObj (own_set props k x))
  | VUndefined =>
      Throw (TypeError ("Cannot set property '" ++ k ++ "' of undefined"))
  | VNull =>
      Throw (TypeError ("Cannot set property '" ++ k ++ "' of null"))
  | VBool _ | VNum _ | VNaN | VStr _ =>
      Throw (TypeError ("Cannot create property '" ++ k ++ "'"))
  | VArr _ | VNative _ =>
      Throw (Unmodelled ("named member '" ++ k ++ "'"))
  end.

(** ToPropertyKey for a computed member name. *)
Definition to_property_key (v : value) : result string := to_string v.

(** ** String and array methods called by the program *)

(** [String.prototype.indexOf(needle)]: the position of the first
    occurrence, [-1] when there is none. *)
Fixpoint indexOf_from (needle s : string) (i : Z) : Z :=
  if prefix needle s then i
  else match s with
       | EmptyString => -1
       | String _ s' => indexOf_from needle s' (i + 1)
       end.

Definition indexOf (s needle : string) : Z := indexOf_from needle s 0.

(** [String.prototype.substring(start)] for [0 <= start]. *)
Fixpoint substring_from (start : nat) (s : string) : string :=
  match start, s with
  | O, _ => s
  | Datatypes.S n, EmptyString => EmptyString
  | Datatypes.S n, String _ s' => substring_from n s'
  end.

(** [Array.prototype.indexOf(needle)] for a string needle: strict
    equality, so only a string element can match. *)
Fixpoint array_indexOf_from (elems : list value) (needle : string) (i : Z) : Z :=
  match elems with
  | [] => -1
  | VStr s :: rest =>
      if (s =? needle)%string then i else array_indexOf_from rest needle (i + 1)
  | _ :: rest => array_indexOf_from rest needle (i + 1)
  end.

(** The elements of an array; nothing for any other value. *)
Definition elements (v : value) : list value :=
  match v with
  | VArr elems => elems
  | _ => []
  end.

(** [v.indexOf(needle)]: strings and arrays have the method. *)
Definition call_indexOf (v : value) (needle : string) : result Z :=
  match v with
  | VStr s => Ok (indexOf s needle)
  | VArr elems => Ok (array_indexOf_from elems needle 0)
  | VUndefined => Throw (TypeError "Cannot read property 'indexOf' of undefined")
  | VNull => Throw (TypeError "Cannot read property 'indexOf' of null")
  | _ => Throw (TypeError "indexOf is not a function")
  end.

(** [v.substring(start)]: only strings have the method. *)
Definition call_substring (v : value) (start : Z) : result string :=
  match v with
  | VStr s => Ok (substring_from (Z.to_nat start) s)
  | VUndefined => Throw (TypeError "Cannot read property 'substring' of undefined")
  | VNull => Throw (TypeError "Cannot read property 'substring' of null")
  | _ => Throw (TypeError "substring is not a function")
  end.

(** [v.join(sep)] on an array. *)
Definition call_join (v : value) (sep : string) : result string :=
  match v with
  | VArr elems => join sep elems
  | VUndefined => Throw (TypeError "Cannot read property 'join' of undefined")
  | VNull => Throw (TypeError "Cannot read property 'join' of null")
  | _ => Throw (TypeError "join is not a function")
  end.

(** [arr.push(x)], returning the array after the call. *)
Definition push (arr x : value) : result value :=
  match arr with
  | VArr elems => Ok (VArr (elems ++ [x]))
  | VUndefined => Throw (TypeError "Cannot read property 'push' of undefined")
  | VNull => Throw (TypeError "Cannot read property 'push' of null")
  | _ => Throw (TypeError "push is not a function")
  end.

(** [[].concat(...args)]: an array argument contributes its elements,
    any other argument itself. *)
Definition concat_spread (args : list value) : list value :=
  flat_map (fun a => match a with
                     | VArr elems => elems
                     | _ => [a]
                     end) args.

(** ** The grouper *)

Definition severityMap : value :=
  VObj [("low", VNum 0); ("medium", VNum 1); ("high", VNum 2)]%string.

Definition defaultRemediationText : string :=
  "## Remediation" ++ nl ++ "There is no remediation at the moment".

Definition metadataForVuln (vuln : value) : result value :=
  id <- get vuln "id" ;;
  title <- get vuln "title" ;;
  name <- get vuln "name" ;;
  info <- get vuln "info" ;;
  severity <- get vuln "severity" ;;
  severityKey <- to_property_key severity ;;
  severityValue <- get severityMap severityKey ;;
  description <- get vuln "description" ;;
  fixedIn <- get vuln "fixedIn" ;;
  packageManager <- get vuln "packageManager" ;;
  Ok (VObj [ ("id", id);
             ("title", title);
             ("name", name);
             ("info", js_or info (VStr "No information available."));
             ("severity", severity);
             ("severityValue", severityValue);
             ("description", js_or description (VStr "No description available."));
             ("fixedIn", fixedIn);
             ("packageManager", packageManager) ]%string).

(** The three locals of [groupVulns]. *)
Record groupState : Type := mkGroupState {
  gs_result : value;
  gs_uniqueCount : Z;
  gs_pathsCount : Z
}.

(** The object [groupVulns] returns. *)
Record grouped : Type := mkGrouped {
  vulnerabilities : value;
  vulnerabilitiesUniqueCount : Z;
  vulnerabilitiesPathsCount : Z
}.

(** The callback of [vulns.map].  In the [else] branch the array held
    by the group is extended in place; the embedding writes the extended
    array back into the group and the group back into [result], which is
    what every later read through [result] observes. *)
Definition groupStep (st : groupState) (vuln : value) : result groupState :=
  id <- get vuln "id" ;;
  key <- to_property_key id ;;
  existing <- get (gs_result st) key ;;
  if negb (truthy existing) then
    metadata <- metadataForVuln vuln ;;
    result' <- set (gs_result st) key
                 (VObj [("list", VArr [vuln]); ("metadata", metadata)]%string) ;;
    Ok (mkGroupState result' (gs_uniqueCount st + 1) (gs_pathsCount st + 1))
  else
    list <- get existing "list" ;;
    list' <- push list vuln ;;
    existing' <- set existing "list" list' ;;
    result' <- set (gs_result st) key existing' ;;
    Ok (mkGroupState result' (gs_uniqueCount st) (gs_pathsCount st + 1)).

Definition groupInit : groupState := mkGroupState (VObj []) 0 0.

Definition groupVulns (vulns : value) : result grouped :=
  st <- (if truthy vulns && isArray vulns
         then foldM groupStep (elements vulns) groupInit
         else Ok groupInit) ;;
  Ok (mkGrouped (gs_result st) (gs_uniqueCount st) (gs_pathsCount st)).

(** ** The merger *)

Definition mergeData (dataArray : list value) : result value :=
  vulnsArrays <- mapM (fun project =>
                         v <- get project "vulnerabilities" ;;
                         Ok (js_or v (VArr []))) dataArray ;;
  let aggregateVulnerabilities := concat_spread vulnsArrays in
  totalUniqueCount <-
    foldM (fun acc item =>
             v <- get item "vulnerabilities" ;;
             len <- get v "length" ;;
             sum <- js_add acc len ;;
             Ok (js_or sum (VNum 0))) dataArray (VNum 0) ;;
  totalDepCount <-
    foldM (fun acc item =>
             d <- get item "dependencyCount" ;;
             sum <- js_add acc d ;;
             Ok (js_or sum (VNum 0))) dataArray (VNum 0) ;;
  paths <- mapM (fun project =>
                   p <- get project "path" ;;
                   pm <- get project "packageManager" ;;
                   Ok (VObj [("path", p); ("packageManager", pm)]%string))
             dataArray ;;
  summary <- js_add (VNum (Z.of_nat (length aggregateVulnerabilities)))
               (VStr " vulnerable dependency paths") ;;
  Ok (VObj [ ("vulnerabilities", VArr aggregateVulnerabilities);
             ("uniqueCount", totalUniqueCount);
             ("summary", summary);
             ("dependencyCount", totalDepCount);
             ("paths", VArr paths) ]%string).

(** ** The remediation resolver (Handlebars helper [getRemediation]) *)

Section Remediation.

(** The markdown renderer, an external library. *)
Variable marked : string -> string.

Definition getRemediation (description fixedIn : value) : result string :=
  index <- call_indexOf description "## Remediation" ;;
  if index >? -1 then
    block <- call_substring description index ;;
    Ok (marked block)
  else
    hasFix <- (if isArray fixedIn then get fixedIn "length"
               else Ok (VBool false)) ;;
    if truthy hasFix then
      fixedInJoined <- call_join fixedIn ", " ;;
      Ok (marked ("## Remediation" ++ nl ++ " Fixed in: " ++ fixedInJoined))
    else Ok (marked defaultRemediationText).

End Remediation.

(** ** The orchestrator and the invocation surface *)

(** Who is handed the outcome of an invocation. *)
Inductive sink : Type :=
| ReportCallback
| ConsoleLog.

(** One call observed from outside: the callee and its argument, a
    rendered report or an error. *)
Definition event : Type := (sink * result string)%type.

(** A compiled Handlebars template, kept as its source text, and the
    registry of partials that [Handlebars.registerPartial] fills. *)
Definition template : Type := string.
Definition registry : Type := list (string * template).

Fixpoint registerPartial (name : string) (t : template) (partials : registry)
  : registry :=
  match partials with
  | [] => [(name, t)]
  | (n, t') :: rest =>
      if (n =? name)%string then (n, t) :: rest
      else (n, t') :: registerPartial name t rest
  end.

Section Pipeline.

(** The collaborators: the filesystem ([fs.readFile] with its outcome
    per path), the standard input read to its end, [JSON.parse],
    [path.dirname] and [path.join], and Handlebars applying a compiled
    template to a context with the partials registered so far. *)
Variable fs_readFile : string -> result string.
Variable stdin : result string.
Variable JSON_parse : string -> result value.
Variable path_dirname : string -> string.
Variable path_join : string -> string -> string.
Variable render : registry -> template -> value -> result string.

(** The caller's callback, with what calling it does to the caller. *)
Variable reportCallback : string -> result unit.

Definition readFile (filePath : string) : result string :=
  fs_readFile filePath.

Definition compileTemplate (fileName : string) : result template :=
  readFile fileName.

Definition registerPeerPartial (templatePath name : string)
    (partials : registry) : result registry :=
  let dir := path_dirname templatePath in
  let file := path_join dir ("test-report." ++ name ++ ".hbs") in
  t <- compileTemplate file ;;
  Ok (registerPartial name t partials).

(** The first four statements of [generateTemplate]: the context the
    template is applied to. *)
Definition renderContext (data : value) (summary : bool) : result value :=
  vulns <- get data "vulnerabilities" ;;
  vulnMetadata <- groupVulns vulns ;;
  data1 <- set data "vulnerabilities" (vulnerabilities vulnMetadata) ;;
  data2 <- set data1 "uniqueCount"
             (VNum (vulnerabilitiesUniqueCount vulnMetadata)) ;;
  text <- js_add (VNum (vulnerabilitiesPathsCount vulnMetadata))
            (VStr " vulnerable dependency paths") ;;
  data3 <- set data2 "summary" text ;;
  set data3 "showSummaryOnly" (VBool summary).

Definition generateTemplate (data : value) (templatePath : string)
    (summary : bool) (partials : registry) : result string :=
  context <- renderContext data summary ;;
  partials1 <- registerPeerPartial templatePath "inline-css" partials ;;
  partials2 <- registerPeerPartial templatePath "vuln-card" partials1 ;;
  htmlTemplate <- compileTemplate templatePath ;;
  render partials2 htmlTemplate context.

Definition processData (data : value) (templatePath : string)
    (summary : bool) (partials : registry) : result string :=
  mergedData <- (if isArray data then mergeData (elements data)
                 else Ok data) ;;
  generateTemplate mergedData templatePath summary partials.

Definition readInputFromStdin : result string := stdin.

(** [source ? readFile(source, 'utf8') : readInputFromStdin()];
    [source] is [None] for an absent source, and the empty path is
    falsy as well. *)
Definition promisedString (source : option string) : result string :=
  match source with
  | Some p => if negb (p =? "")%string then readFile p
              else readInputFromStdin
  | None => readInputFromStdin
  end.

Definition runAsync (source : option string) (templatePath : string)
    (summary : bool) (partials : registry) : result string :=
  text <- promisedString source ;;
  data <- JSON_parse text ;;
  processData data templatePath summary partials.

(** [runAsync(...).then(reportCallback).catch(console.log)]. *)
Definition run (dataSource : option string) (hbsTemplate : string)
    (summary : bool) (partials : registry) : list event :=
  match runAsync dataSource hbsTemplate summary partials with
  | Ok report =>
      (ReportCallback, Ok report)
        :: match reportCallback report with
           | Ok _ => []
           | Throw e => [(ConsoleLog, Throw e)]
           end
  | Throw e => [(ConsoleLog, Throw e)]
  end.

End Pipeline.

(** ** Handlebars helpers [count] and [isDoubleArray] *)

(** The [options] a block helper receives: the block and its [else]. *)
Record blockOptions : Type := mkBlockOptions {
  opt_fn : value -> result string;
  opt_inverse : value -> result string
}.

(** [data => data && data.length]. *)
Definition count (data : value) : result value :=
  if truthy data then get data "length" else Ok data.

(** [Array.isArray(data[0]) ? options.fn(data) : options.inverse(data)]. *)
Definition isDoubleArray (data : value) (options : blockOptions) : result string :=
  first <- get data "0" ;;
  if isArray first then opt_fn options data else opt_inverse options data.

(** ** Reading the standard input *)

(** [readInputFromStdin] as the stream drives it.  The promise is
    settled by the first [end] or [error]; each [readable] appends what
    [process.stdin.read()] returns, unless that is [null]. *)
Module Stdin.

Inductive streamEvent : Type :=
| Readable (chunk : option string)
| StreamError (e : error)
| StreamEnd.

Record state : Type := mkState {
  jsonString : string;
  settled : option (result string)
}.

Definition settle (st : state) (outcome : result string) : state :=
  match settled st with
  | Some _ => st
  | None => mkState (jsonString st) (Some outcome)
  end.

Definition onEvent (st : state) (ev : streamEvent) : state :=
  match ev with
  | Readable (Some chunk) => mkState (jsonString st ++ chunk) (settled st)
  | Readable None => st
  | StreamError e => settle st (Throw e)
  | StreamEnd => settle st (Ok (jsonString st))
  end.

(** What the promise holds after the events: [None] while pending. *)
Definition readInputFromStdin (events : list streamEvent) : option (result string) :=
  settled (fold_left onEvent events (mkState "" None)).

End Stdin.

(** * Vocabulary of the properties *)

(** [needle] occurs in [s]. *)
Definition occurs_in (needle s : string) : Prop :=
  exists pre post, s = (pre ++ needle ++ post)%string.

(** The property key under which [groupVulns] files an occurrence:
    [vuln.id] converted to a member name. *)
Definition keyOf (vuln : value) : result string :=
  id <- get vuln "id" ;; to_property_key id.

Definition hasKey (k : string) (vuln : value) : bool :=
  match keyOf vuln with
  | Ok k' => (k' =? k)%string
  | Throw _ => false
  end.

(** The object stored for one identifier. *)
Definition group (occurrences : list value) (metadata : value) : value :=
  VObj [("list", VArr occurrences); ("metadata", metadata)]%string.

(** After the occurrences [done], the locals of [groupVulns] hold a
    plain object with one group per key seen, each made of the metadata
    of the first occurrence under that key and of all the occurrences
    under that key in input order. *)
Record grouping (done : list value) (st : groupState)
    (props : list (string * value)) : Prop := {
  g_result : gs_result st = VObj props;
  g_paths : gs_pathsCount st = Z.of_nat (length done);
  g_unique : gs_uniqueCount st = Z.of_nat (length props);
  g_keyed : Forall (fun v => exists k, keyOf v = Ok k) done;
  g_nodup : NoDup (map fst props);
  g_absent : forall k, find (hasKey k) done = None -> own_lookup props k = None;
  g_present : forall k first,
      find (hasKey k) done = Some first ->
      inherited k = false
      /\ exists m, metadataForVuln first = Ok m
                   /\ own_lookup props k = Some (group (filter (hasKey k) done) m)
}.

(** An occurrence the grouper can file: its key is defined and is not
    the name of an inherited property, and its metadata can be built. *)
Definition groupable (vuln : value) : Prop :=
  exists k m, keyOf vuln = Ok k /\ inherited k = false
              /\ metadataForVuln vuln = Ok m.

Definition primitive (v : value) : bool :=
  match v with
  | VArr _ | VObj _ | VNative _ => false
  | _ => true
  end.

(** A report that carries the vulnerability list [vulns], and whose
    dependency count, when it has one, is not an object. *)
Definition reportWith (report : value) (vulns : list value) : Prop :=
  get report "vulnerabilities" = Ok (VArr vulns)
  /\ exists d, get report "dependencyCount" = Ok d /\ primitive d = true.

(** The raw sum of the lengths of the reports' lists. *)
Definition rawCount (lists : list (list value)) : Z :=
  Z.of_nat (list_sum (map (@length value) lists)).


(** The occurrences held by the groups of a grouped mapping, group
    after group. *)
Definition groupLists (result : value) : list value :=
  match result with
  | VObj props =>
      flat_map (fun kv => match get (snd kv) "list" with
                          | Ok l => elements l
                          | Throw _ => []
                          end) props
  | _ => []
  end.

(** What is registered under a name. *)
Fixpoint lookupPartial (name : string) (partials : registry) : option template :=
  match partials with
  | [] => None
  | (n, t) :: rest => if (n =? name)%string then Some t else lookupPartial name rest
  end.

(** The four members [generateTemplate] writes. *)
Definition contextMembers : list string :=
  ["vulnerabilities"; "uniqueCount"; "summary"; "showSummaryOnly"].

(** The text received through [readable] events, in arrival order. *)
Fixpoint received (chunks : list (option string)) : string :=
  match chunks with
  | [] => ""
  | Some chunk :: rest => chunk ++ received rest
  | None :: rest => received rest
  end.

(** A report whose vulnerability list cannot be measured: the report
    or its list is [undefined] or [null]. *)
Definition lacksList (report : value) : Prop :=
  report = VUndefined \/ report = VNull
  \/ get report "vulnerabilities" = Ok VUndefined
  \/ get report "vulnerabilities" = Ok VNull.

(** A dependency count that is a number or is missing. *)
Definition countOrMissing (report : value) : Prop :=
  get report "dependencyCount" = Ok VUndefined
  \/ exists n, get report "dependencyCount" = Ok (VNum n).







(** * Sample data for the closed examples *)

Definition occ_ms : value :=
  VObj [ ("id", VStr "npm:ms:20151024");
         ("title", VStr "Regular Expression Denial of Service (ReDoS)");
         ("name", VStr "ms");
         ("severity", VStr "medium");
         ("fixedIn", VArr [VStr "0.7.1"]) ].

Definition occ_ms_again : value :=
  VObj [ ("id", VStr "npm:ms:20151024");
         ("title", VStr "ReDoS");
         ("name", VStr "ms");
         ("info", VStr "second path");
         ("severity", VStr "high");
         ("description", VStr "## Overview") ].

Definition occ_qs : value :=
  VObj [ ("id", VStr "npm:qs:20170213");
         ("title", VStr "Prototype Override Protection Bypass");
         ("name", VStr "qs");
         ("severity", VStr "high");
         ("description", VStr "## Overview") ].

(** A stand-in for the collaborators: a filesystem with one report, one
    broken report and the three template files, a parser that knows the
    empty document, and a renderer that prints the summary. *)
Definition sample_marked (md : string) : string := "<md>" ++ md ++ "</md>".

Definition sample_readFile (p : string) : result string :=
  if (p =? "report.json")%string then Ok "{}"
  else if (p =? "broken.json")%string then Ok "{"
  else if (p =? "template/test-report.hbs")%string then Ok "{{summary}}"
  else if (p =? "template/test-report.inline-css.hbs")%string then Ok "css"
  else if (p =? "template/test-report.vuln-card.hbs")%string then Ok "card"
  else Throw (IOError p).

Definition sample_parse (text : string) : result value :=
  if (text =? "{}")%string then Ok (VObj [])
  else Throw (SyntaxError "Unexpected end of JSON input").

Definition sample_dirname (p : string) : string := "template".

Definition sample_join (dir file : string) : string := dir ++ "/" ++ file.

Definition sample_render (partials : registry) (t : template) (context : value)
  : result string :=
  match get context "summary" with
  | Ok (VStr s) => Ok ("<span>" ++ s ++ "</span>")
  | _ => Throw (RenderError "no summary")
  end.

Definition sample_callback (report : string) : result unit := Ok tt.

Definition sample_runAsync :=
  runAsync sample_readFile (Ok "{}") sample_parse sample_dirname sample_join
    sample_render.

Definition sample_run :=
  run sample_readFile (Ok "{}") sample_parse sample_dirname sample_join
    sample_render sample_callback.

Definition sample_vulns : list value := [occ_ms; occ_qs; occ_ms_again].

Definition sample_grouped : grouped :=
  Eval vm_compute in
    match groupVulns (VArr sample_vulns) with
    | Ok r => r
    | Throw _ => mkGrouped VUndefined 0 0
    end.

Definition occ_constructor : value :=
  VObj [("id", VStr "constructor"); ("title", VStr "Prototype Pollution")].

Definition sample_reports : list value :=
  [ VObj [("vulnerabilities", VArr [occ_ms; occ_ms_again]); ("path", VStr "app")];
    VObj [("vulnerabilities", VArr [occ_qs]); ("dependencyCount", VNum 30)] ].

Definition sample_lists : list (list value) := [[occ_ms; occ_ms_again]; [occ_qs]].

Definition sample_options : blockOptions :=
  mkBlockOptions (fun _ => Ok "rows of rows") (fun _ => Ok "one row").

Definition report_app : value :=
  VObj [ ("vulnerabilities", VArr [occ_ms; occ_ms_again]);
         ("dependencyCount", VNum 12);
         ("path", VStr "app"); ("packageManager", VStr "npm") ].

Definition report_lib : value :=
  VObj [ ("vulnerabilities", VArr [occ_qs]); ("dependencyCount", VNum 30);
         ("path", VStr "lib") ].

Definition report_uncounted : value :=
  VObj [ ("vulnerabilities", VArr []); ("path", VStr "tools") ].

Definition report_single : value :=
  VObj [ ("vulnerabilities", VArr [occ_ms; occ_qs; occ_ms_again]);
         ("dependencyCount", VNum 42); ("path", VStr "app");
         ("uniqueCount", VStr "stale") ].

Definition occ_blank : value :=
  VObj [ ("id", VStr "npm:st:20140206"); ("title", VStr "Directory Traversal");
         ("info", VStr ""); ("description", VNull) ].

(** * Properties *)

(** ** The error monad *)

Lemma bind_Ok_inv {A B : Type} (m : result A) (f : A -> result B) (b : B) :
  (x <- m ;; f x) = Ok b -> exists a, m = Ok a /\ f a = Ok b.
Proof.
  destruct m as [a | e]; simpl; intro H.
  - exists a. split; [reflexivity | exact H].
  - discriminate H.
Qed.

Lemma foldM_snoc {A S : Type} (step : S -> A -> result S) (l : list A) (a : A) (s : S) :
  foldM step (l ++ [a])%list s = (s' <- foldM step l s ;; step s' a).
Proof.
  revert s. induction l as [| x l IH]; intro s; simpl.
  - destruct (step s a); reflexivity.
  - destruct (step s x) as [s1 | e]; simpl; [apply IH | reflexivity].
Qed.

(** ** Strings *)

Lemma prefix_app (n s : string) :
  prefix n s = true <-> exists post, s = (n ++ post)%string.
Proof.
  revert s. induction n as [| a n IH]; intro s; simpl.
  - split; [intros _; exists s; reflexivity | destruct s; reflexivity].
  - destruct s as [| b s].
    + split; [discriminate | intros [post H]; discriminate H].
    + simpl. destruct (ascii_dec a b) as [-> | Hab].
      * rewrite IH. split; intros [post H]; exists post.
        -- now rewrite H.
        -- now inversion H.
      * split; [discriminate | intros [post H]; exfalso; apply Hab; congruence].
Qed.

Lemma substring_from_app (pre rest : string) :
  substring_from (String.length pre) (pre ++ rest) = rest.
Proof. induction pre as [| c pre IH]; simpl; [now destruct rest | exact IH]. Qed.

Lemma indexOf_from_eq (needle s : string) (i : Z) :
  indexOf_from needle s i =
  if prefix needle s then i
  else match s with
       | EmptyString => -1
       | String _ s' => indexOf_from needle s' (i + 1)
       end.
Proof. destruct s; reflexivity. Qed.

(** What [indexOf] finds: nothing exactly when there is no occurrence,
    and otherwise the first occurrence. *)
Lemma indexOf_from_spec (needle s : string) (i : Z) :
  (indexOf_from needle s i = -1 /\ ~ occurs_in needle s /\ i <> -1)
  \/ (exists pre post,
        s = (pre ++ needle ++ post)%string
        /\ indexOf_from needle s i = i + Z.of_nat (String.length pre)
        /\ forall pre' post', s = (pre' ++ needle ++ post')%string ->
                              (String.length pre <= String.length pre')%nat)
  \/ i < 0.
Proof.
  destruct (Z_lt_dec i 0) as [Hneg | Hi]; [right; right; exact Hneg |].
  revert i Hi. induction s as [| c s IH]; intros i Hi; rewrite indexOf_from_eq.
  - destruct (prefix needle "") eqn:Hp.
    + right; left. apply prefix_app in Hp. destruct Hp as [post Hp].
      exists ""%string, post. simpl. repeat split; [exact Hp | lia |].
      intros; simpl; lia.
    + left. repeat split; [| lia]. intros [pre [post H]].
      destruct pre; [| discriminate H]. simpl in H.
      assert (prefix needle "" = true) by (apply prefix_app; now exists post).
      congruence.
  - destruct (prefix needle (String c s)) eqn:Hp.
    + right; left. apply prefix_app in Hp. destruct Hp as [post Hp].
      exists ""%string, post. simpl. repeat split; [exact Hp | lia |].
      intros; simpl; lia.
    + assert (Hno : forall post, String c s <> (needle ++ post)%string).
      { intros post H.
        assert (prefix needle (String c s) = true) by (apply prefix_app; now exists post).
        congruence. }
      destruct (IH (i + 1)) as [[Hr [Hnot _]] | [[pre [post [Hs [Hr Hmin]]]] | Hlt]]; try lia.
      * left. repeat split; [exact Hr | | lia]. intros [pre [post H]].
        destruct pre as [| c' pre]; simpl in H.
        -- exact (Hno post H).
        -- inversion H. apply Hnot. now exists pre, post.
      * right; left. exists (String c pre), post. simpl. repeat split.
        -- now rewrite Hs.
        -- rewrite Hr. lia.
        -- intros pre' post' H. destruct pre' as [| c' pre']; simpl in H.
           ++ exfalso. exact (Hno post' H).
           ++ inversion H. simpl. apply le_n_S. eapply Hmin. eassumption.
Qed.

Lemma indexOf_absent (needle s : string) :
  ~ occurs_in needle s -> indexOf s needle = -1.
Proof.
  intro Hnot. unfold indexOf.
  destruct (indexOf_from_spec needle s 0) as [[Hr _] | [[pre [post [Hs _]]] | Hlt]].
  - exact Hr.
  - exfalso. apply Hnot. now exists pre, post.
  - lia.
Qed.

Lemma indexOf_absent_iff (needle s : string) :
  indexOf s needle = -1 <-> ~ occurs_in needle s.
Proof.
  split; [| apply indexOf_absent].
  unfold indexOf. intro H.
  destruct (indexOf_from_spec needle s 0) as [[_ [Hnot _]] | [[pre [post [_ [Hr _]]]] | Hlt]].
  - exact Hnot.
  - rewrite Hr in H. lia.
  - lia.
Qed.

Lemma indexOf_found (needle s : string) :
  occurs_in needle s ->
  exists pre post,
    s = (pre ++ needle ++ post)%string
    /\ indexOf s needle = Z.of_nat (String.length pre)
    /\ forall pre' post', s = (pre' ++ needle ++ post')%string ->
                          (String.length pre <= String.length pre')%nat.
Proof.
  intro Hocc. unfold indexOf.
  destruct (indexOf_from_spec needle s 0) as [[_ [Hnot _]] | [[pre [post [Hs [Hr Hmin]]]] | Hlt]].
  - contradiction.
  - exists pre, post. repeat split; [exact Hs | rewrite Hr; lia | exact Hmin].
  - lia.
Qed.

(** ** Plain objects as property lists *)

Lemma own_lookup_set_same props k v :
  own_lookup (own_set props k v) k = Some v.
Proof.
  induction props as [| [k' v'] rest IH]; simpl.
  - now rewrite String.eqb_refl.
  - destruct (k' =? k)%string eqn:E; simpl; rewrite E; [reflexivity | exact IH].
Qed.

Lemma own_lookup_set_other props k v k0 :
  k0 <> k -> own_lookup (own_set props k v) k0 = own_lookup props k0.
Proof.
  intro Hne. induction props as [| [k' v'] rest IH]; simpl.
  - destruct (k =? k0)%string eqn:E; [| reflexivity].
    apply String.eqb_eq in E. congruence.
  - destruct (k' =? k)%string eqn:E; simpl.
    + apply String.eqb_eq in E. subst k'.
      destruct (k =? k0)%string eqn:E0; [| reflexivity].
      apply String.eqb_eq in E0. congruence.
    + now rewrite IH.
Qed.

Lemma own_lookup_None props k :
  own_lookup props k = None <-> ~ In k (map fst props).
Proof.
  induction props as [| [k' v'] rest IH]; simpl.
  - tauto.
  - destruct (k' =? k)%string eqn:E.
    + apply String.eqb_eq in E. split; [discriminate | tauto].
    + apply String.eqb_neq in E. rewrite IH. tauto.
Qed.

Lemma own_set_keys_absent props k v :
  own_lookup props k = None ->
  map fst (own_set props k v) = (map fst props ++ [k])%list.
Proof.
  induction props as [| [k' v'] rest IH]; simpl; [reflexivity |].
  destruct (k' =? k)%string; [discriminate |].
  intro H. simpl. now rewrite IH.
Qed.

Lemma own_set_keys_present props k v :
  own_lookup props k <> None ->
  map fst (own_set props k v) = map fst props.
Proof.
  induction props as [| [k' v'] rest IH]; simpl; [congruence |].
  destruct (k' =? k)%string; [reflexivity |].
  intro H. simpl. now rewrite IH.
Qed.

(** ** Lists *)

Lemma find_app {A : Type} (f : A -> bool) (l l' : list A) :
  find f (l ++ l')%list =
  match find f l with
  | Some x => Some x
  | None => find f l'
  end.
Proof.
  induction l as [| x l IH]; simpl; [reflexivity |].
  destruct (f x); [reflexivity | exact IH].
Qed.

Lemma find_snoc {A : Type} (f : A -> bool) (l : list A) (a : A) :
  find f (l ++ [a])%list =
  match find f l with
  | Some x => Some x
  | None => if f a then Some a else None
  end.
Proof. rewrite find_app. reflexivity. Qed.

Lemma filter_snoc {A : Type} (f : A -> bool) (l : list A) (a : A) :
  filter f (l ++ [a])%list = (filter f l ++ (if f a then [a] else []))%list.
Proof. rewrite filter_app. reflexivity. Qed.

Lemma find_None_filter {A : Type} (f : A -> bool) (l : list A) :
  find f l = None -> filter f l = [].
Proof.
  induction l as [| x l IH]; simpl; [reflexivity |].
  destruct (f x); [discriminate | exact IH].
Qed.

(** ** The grouper's loop invariant *)

Lemma groupStep_eq st vuln :
  groupStep st vuln =
  (key <- keyOf vuln ;;
   existing <- get (gs_result st) key ;;
   if negb (truthy existing) then
     metadata <- metadataForVuln vuln ;;
     result' <- set (gs_result st) key (group [vuln] metadata) ;;
     Ok (mkGroupState result' (gs_uniqueCount st + 1) (gs_pathsCount st + 1))
   else
     list <- get existing "list" ;;
     list' <- push list vuln ;;
     existing' <- set existing "list" list' ;;
     result' <- set (gs_result st) key existing' ;;
     Ok (mkGroupState result' (gs_uniqueCount st) (gs_pathsCount st + 1))).
Proof.
  unfold groupStep, keyOf. destruct (get vuln "id"); simpl; reflexivity.
Qed.

Lemma hasKey_of_key vuln key k :
  keyOf vuln = Ok key -> hasKey k vuln = (key =? k)%string.
Proof. intro H. unfold hasKey. now rewrite H. Qed.

Lemma grouping_init : grouping [] groupInit [].
Proof.
  constructor; simpl; try reflexivity; try discriminate.
  - constructor.
  - constructor.
Qed.

Lemma grouping_step done st props vuln st' :
  grouping done st props ->
  groupStep st vuln = Ok st' ->
  exists props', grouping (done ++ [vuln])%list st' props'.
Proof.
  intros [Hres Hpaths Huniq Hkeyed Hnodup Habsent Hpresent] Hstep.
  rewrite groupStep_eq in Hstep.
  apply bind_Ok_inv in Hstep. destruct Hstep as [key [Hkey Hstep]].
  rewrite Hres in Hstep. simpl in Hstep.
  assert (Hkeyed' : Forall (fun v => exists k, keyOf v = Ok k) (done ++ [vuln])%list).
  { apply Forall_app. split; [exact Hkeyed |].
    constructor; [now exists key | constructor]. }
  assert (Hlen : Z.of_nat (length (done ++ [vuln])%list) = Z.of_nat (length done) + 1).
  { rewrite length_app. simpl. lia. }
  assert (Hother : forall k, k <> key -> hasKey k vuln = false).
  { intros k Hne. rewrite (hasKey_of_key _ _ _ Hkey).
    apply String.eqb_neq. congruence. }
  assert (Hself : hasKey key vuln = true).
  { rewrite (hasKey_of_key _ _ _ Hkey). apply String.eqb_refl. }
  destruct (find (hasKey key) done) as [first |] eqn:Hfind.
  - (* the key has a group: the occurrence is appended to it *)
    destruct (Hpresent key first Hfind) as [Hinh [m [Hm Hown]]].
    rewrite Hown in Hstep. simpl in Hstep.
    injection Hstep as <-.
    set (g' := VObj [("list"%string, VArr (filter (hasKey key) done ++ [vuln])%list);
                     ("metadata"%string, m)]).
    exists (own_set props key g').
    constructor; simpl.
    + reflexivity.
    + lia.
    + rewrite Huniq. f_equal.
      rewrite <- (length_map fst props), <- (length_map fst (own_set props key g')).
      rewrite own_set_keys_present; [reflexivity | congruence].
    + exact Hkeyed'.
    + rewrite own_set_keys_present; [exact Hnodup | congruence].
    + intros k Hk. rewrite find_snoc in Hk.
      destruct (find (hasKey k) done) eqn:Hfk; [discriminate |].
      destruct (String.eqb_spec k key) as [-> | Hne].
      * rewrite Hself in Hk. discriminate.
      * rewrite own_lookup_set_other by exact Hne. now apply Habsent.
    + intros k f Hk. rewrite find_snoc, filter_snoc in *.
      destruct (String.eqb_spec k key) as [-> | Hne].
      * rewrite Hfind in Hk. injection Hk as <-.
        split; [exact Hinh |]. exists m. split; [exact Hm |].
        rewrite Hself, own_lookup_set_same. reflexivity.
      * rewrite (Hother k Hne) in *. rewrite app_nil_r.
        destruct (find (hasKey k) done) as [f0 |] eqn:Hfk; [| discriminate].
        injection Hk as <-.
        rewrite own_lookup_set_other by exact Hne.
        exact (Hpresent k f0 Hfk).
  - (* the key has no group yet *)
    rewrite (Habsent key Hfind) in Hstep. simpl in Hstep.
    unfold object_prototype_get in Hstep.
    destruct (inherited key) eqn:Hinh; simpl in Hstep; [discriminate |].
    apply bind_Ok_inv in Hstep. destruct Hstep as [m [Hm Hstep]].
    simpl in Hstep. injection Hstep as <-.
    exists (own_set props key (group [vuln] m)).
    constructor; simpl.
    + reflexivity.
    + lia.
    + rewrite Huniq.
      rewrite <- (length_map fst props),
              <- (length_map fst (own_set props key (group [vuln] m))).
      rewrite own_set_keys_absent by (now apply Habsent).
      rewrite length_app. simpl. lia.
    + exact Hkeyed'.
    + rewrite own_set_keys_absent by (now apply Habsent).
      apply NoDup_app; [exact Hnodup | repeat constructor; simpl; tauto |].
      intros x Hx [<- | []]. 
      apply (proj1 (own_lookup_None props key)) in Hx; [exact Hx | now apply Habsent].
    + intros k Hk. rewrite find_snoc in Hk.
      destruct (find (hasKey k) done) eqn:Hfk; [discriminate |].
      destruct (String.eqb_spec k key) as [-> | Hne].
      * rewrite Hself in Hk. discriminate.
      * rewrite own_lookup_set_other by exact Hne. now apply Habsent.
    + intros k f Hk. rewrite find_snoc, filter_snoc in *.
      destruct (String.eqb_spec k key) as [-> | Hne].
      * rewrite Hfind, Hself in Hk. injection Hk as <-.
        split; [exact Hinh |]. exists m. split; [exact Hm |].
        rewrite Hself, own_lookup_set_same, (find_None_filter _ _ Hfind).
        reflexivity.
      * rewrite (Hother k Hne) in *. rewrite app_nil_r.
        destruct (find (hasKey k) done) as [f0 |] eqn:Hfk; [| discriminate].
        injection Hk as <-.
        rewrite own_lookup_set_other by exact Hne.
        exact (Hpresent k f0 Hfk).
Qed.

Lemma grouping_loop (vulns : list value) (st : groupState) :
  foldM groupStep vulns groupInit = Ok st ->
  exists props, grouping vulns st props.
Proof.
  revert st. induction vulns as [| vuln done IH] using rev_ind; intros st H.
  - injection H as <-. exists []. exact grouping_init.
  - rewrite foldM_snoc in H.
    apply bind_Ok_inv in H. destruct H as [st0 [Hdone Hstep]].
    destruct (IH st0 Hdone) as [props Hinv].
    exact (grouping_step _ _ _ _ _ Hinv Hstep).
Qed.

Lemma groupVulns_loop (vulns : list value) (r : grouped) :
  groupVulns (VArr vulns) = Ok r ->
  exists st props,
    grouping vulns st props
    /\ r = mkGrouped (VObj props) (gs_uniqueCount st) (gs_pathsCount st).
Proof.
  unfold groupVulns. simpl. intro H.
  apply bind_Ok_inv in H. destruct H as [st [Hloop H]].
  injection H as <-.
  destruct (grouping_loop vulns st Hloop) as [props Hinv].
  exists st, props. split; [exact Hinv |].
  now rewrite (g_result _ _ _ Hinv).
Qed.

Lemma groupStep_total done st props vuln :
  grouping done st props -> groupable vuln ->
  exists st', groupStep st vuln = Ok st'.
Proof.
  intros Hinv [k [m [Hk [Hinh Hm]]]].
  rewrite groupStep_eq, Hk, (g_result _ _ _ Hinv). simpl.
  destruct (find (hasKey k) done) as [first |] eqn:Hfind.
  - destruct (g_present _ _ _ Hinv k first Hfind) as [_ [m0 [_ Hown]]].
    rewrite Hown. simpl. eexists. reflexivity.
  - rewrite (g_absent _ _ _ Hinv k Hfind).
    unfold object_prototype_get. rewrite Hinh. simpl.
    rewrite Hm. simpl. eexists. reflexivity.
Qed.

(** The grouper returns on every sequence of groupable occurrences. *)
Lemma groupVulns_total (vulns : list value) :
  Forall groupable vulns -> exists r, groupVulns (VArr vulns) = Ok r.
Proof.
  intro Hall.
  assert (Hloop : exists st, foldM groupStep vulns groupInit = Ok st).
  { induction vulns as [| vuln done IH] using rev_ind.
    - exists groupInit. reflexivity.
    - apply Forall_app in Hall. destruct Hall as [Hdone Hlast].
      inversion Hlast as [| ? ? Hvuln _]; subst.
      destruct (IH Hdone) as [st0 Hst0].
      destruct (grouping_loop _ _ Hst0) as [props Hinv].
      destruct (groupStep_total _ _ _ _ Hinv Hvuln) as [st' Hst'].
      exists st'. rewrite foldM_snoc, Hst0. exact Hst'. }
  destruct Hloop as [st Hst].
  unfold groupVulns. simpl. rewrite Hst. simpl. eexists. reflexivity.
Qed.

Lemma to_string_primitive (v : value) :
  primitive v = true -> exists s, to_string v = Ok s.
Proof.
  destruct v as [| | [|] | n | | s | | |]; try discriminate;
    intros _; eexists; reflexivity.
Qed.

Lemma get_object (props : list (string * value)) (k : string) :
  get (VObj props) k
  = Ok (match own_lookup props k with
        | Some x => x
        | None => object_prototype_get k
        end).
Proof. simpl. now destruct (own_lookup props k). Qed.

(** An object whose [id] is a string that names no inherited property,
    and whose severity is not an object, is groupable. *)
Lemma object_groupable (props : list (string * value)) (id : string) :
  own_lookup props "id" = Some (VStr id) ->
  inherited id = false ->
  (forall sev, own_lookup props "severity" = Some sev -> primitive sev = true) ->
  groupable (VObj props).
Proof.
  intros Hid Hinh Hsev.
  assert (Hkey : exists s,
             to_property_key
               match own_lookup props "severity" with
               | Some x => x
               | None => object_prototype_get "severity"
               end = Ok s).
  { destruct (own_lookup props "severity") as [sev |] eqn:E.
    - apply to_string_primitive. now apply Hsev.
    - eexists. reflexivity. }
  destruct Hkey as [s Hs].
  exists id. unfold keyOf, metadataForVuln, severityMap.
  rewrite !get_object. cbn [bind]. rewrite Hs, Hid. cbn [bind].
  rewrite get_object. cbn [bind to_property_key to_string].
  eexists. split; [reflexivity | split; [exact Hinh | reflexivity]].
Qed.

Lemma mapM_keyOf (vulns : list value) :
  Forall (fun v => exists k, keyOf v = Ok k) vulns ->
  exists keys,
    mapM keyOf vulns = Ok keys
    /\ length keys = length vulns
    /\ forall k, In k keys <-> exists v, In v vulns /\ hasKey k v = true.
Proof.
  induction 1 as [| v l [k Hk] _ [keys [Hkeys [Hlen Hin]]]].
  - exists []. split; [reflexivity | split; [reflexivity |]].
    intro k. split; [intros [] | intros [v [[] _]]].
  - exists (k :: keys). simpl. rewrite Hk, Hkeys. simpl.
    split; [reflexivity | split; [now rewrite Hlen |]].
    intro k0. split.
    + intros [<- | Hk0].
      * exists v. split; [now left |].
        rewrite (hasKey_of_key _ _ _ Hk). apply String.eqb_refl.
      * apply Hin in Hk0. destruct Hk0 as [v0 [Hv0 Hh]].
        exists v0. split; [now right | exact Hh].
    + intros [v0 [[<- | Hv0] Hh]].
      * left. rewrite (hasKey_of_key _ _ _ Hk) in Hh.
        now apply String.eqb_eq in Hh.
      * right. apply Hin. now exists v0.
Qed.

Lemma grouping_keys done st props :
  grouping done st props ->
  forall k, In k (map fst props) <-> exists v, In v done /\ hasKey k v = true.
Proof.
  intros Hinv k. split.
  - intro Hin. destruct (find (hasKey k) done) as [v |] eqn:Hfind.
    + apply find_some in Hfind. now exists v.
    + apply (g_absent _ _ _ Hinv) in Hfind.
      apply own_lookup_None in Hfind. contradiction.
  - intros [v [Hv Hh]].
    destruct (find (hasKey k) done) as [first |] eqn:Hfind.
    + destruct (g_present _ _ _ Hinv k first Hfind) as [_ [m [_ Hown]]].
      destruct (in_dec string_dec k (map fst props)) as [Hin | Hnot];
        [exact Hin |].
      apply own_lookup_None in Hnot. congruence.
    + pose proof (find_none _ _ Hfind v Hv) as Hf. congruence.
Qed.

Lemma metadataForVuln_fallbacks (vuln m : value) :
  metadataForVuln vuln = Ok m ->
  exists info description,
    get vuln "info" = Ok info
    /\ get vuln "description" = Ok description
    /\ get m "info" = Ok (js_or info (VStr "No information available."))
    /\ get m "description" = Ok (js_or description (VStr "No description available.")).
Proof.
  unfold metadataForVuln. intro H.
  repeat (let x := fresh "x" in let Hx := fresh "Hx" in
          apply bind_Ok_inv in H; destruct H as [x [Hx H]]).
  injection H as <-.
  eexists; eexists. repeat split; try eassumption; reflexivity.
Qed.

(** ** The grouper *)

(** C7. An input that is absent or is not a sequence is not an error:
    [groupVulns] returns the empty mapping with both counts zero. *)
Theorem groupVulns_not_a_sequence (vulns : value) :
  isArray vulns = false ->
  groupVulns vulns = Ok (mkGrouped (VObj []) 0 0).
Proof.
  intro H. unfold groupVulns. rewrite H, andb_false_r. reflexivity.
Qed.

Lemma groupVulns_not_a_sequence_witness :
  groupVulns VUndefined = Ok (mkGrouped (VObj []) 0 0)
  /\ groupVulns (VStr "not a list") = Ok (mkGrouped (VObj []) 0 0).
Proof.
  split; apply groupVulns_not_a_sequence; reflexivity.
Defined.

(** C2. The grouper returns on every sequence of groupable
    occurrences, and whenever it returns, the group stored under a key
    holds the metadata built from the first occurrence under that key
    (a missing [info] or [description] replaced by its fixed text) and
    the occurrences under that key in input order; occurrences that come
    later extend the list and leave the metadata as it is. *)
Theorem groupVulns_metadata_first_occurrence (vulns : list value) :
  (Forall groupable vulns -> exists r, groupVulns (VArr vulns) = Ok r)
  /\ forall r k first,
      groupVulns (VArr vulns) = Ok r ->
      find (hasKey k) vulns = Some first ->
      exists m,
        metadataForVuln first = Ok m
        /\ get (vulnerabilities r) k = Ok (group (filter (hasKey k) vulns) m)
        /\ (get first "info" = Ok VUndefined ->
            get m "info" = Ok (VStr "No information available."))
        /\ (get first "description" = Ok VUndefined ->
            get m "description" = Ok (VStr "No description available."))
        /\ forall later r',
            groupVulns (VArr (vulns ++ later)) = Ok r' ->
            get (vulnerabilities r') k
            = Ok (group (filter (hasKey k) vulns ++ filter (hasKey k) later) m).
Proof.
  split; [apply groupVulns_total |].
  intros r k first Hr Hfirst.
  assert (Hgroup : forall l r0,
             groupVulns (VArr l) = Ok r0 ->
             find (hasKey k) l = Some first ->
             exists m, metadataForVuln first = Ok m
                       /\ get (vulnerabilities r0) k
                          = Ok (group (filter (hasKey k) l) m)).
  { intros l r0 Hr0 Hf.
    destruct (groupVulns_loop l r0 Hr0) as [st [props [Hinv ->]]].
    destruct (g_present _ _ _ Hinv k first Hf) as [_ [m [Hm Hown]]].
    exists m. split; [exact Hm |]. simpl. now rewrite Hown. }
  destruct (Hgroup vulns r Hr Hfirst) as [m [Hm Hget]].
  destruct (metadataForVuln_fallbacks first m Hm)
    as [info [description [Hinfo [Hdescr [Hminfo Hmdescr]]]]].
  exists m. repeat split.
  - exact Hm.
  - exact Hget.
  - intro H. rewrite H in Hinfo. injection Hinfo as <-. exact Hminfo.
  - intro H. rewrite H in Hdescr. injection Hdescr as <-. exact Hmdescr.
  - intros later r' Hr'.
    assert (Hf : find (hasKey k) (vulns ++ later) = Some first)
      by (rewrite find_app, Hfirst; reflexivity).
    destruct (Hgroup _ r' Hr' Hf) as [m' [Hm' Hget']].
    rewrite Hget', filter_app. congruence.
Qed.

(** C3. The grouper returns on every sequence of groupable
    occurrences, and whenever it returns, the unique count is at most the
    paths count, which is the length of the input, and the two are equal
    exactly when the keys of the occurrences are pairwise distinct. *)
Theorem groupVulns_counts (vulns : list value) :
  (Forall groupable vulns -> exists r, groupVulns (VArr vulns) = Ok r)
  /\ forall r,
      groupVulns (VArr vulns) = Ok r ->
      exists keys,
        mapM keyOf vulns = Ok keys
        /\ vulnerabilitiesPathsCount r = Z.of_nat (length vulns)
        /\ vulnerabilitiesUniqueCount r <= vulnerabilitiesPathsCount r
        /\ (vulnerabilitiesUniqueCount r = vulnerabilitiesPathsCount r
            <-> NoDup keys).
Proof.
  split; [apply groupVulns_total |].
  intros r Hr.
  destruct (groupVulns_loop vulns r Hr) as [st [props [Hinv ->]]].
  destruct (mapM_keyOf vulns (g_keyed _ _ _ Hinv)) as [keys [Hkeys [Hlen Hin]]].
  pose proof (grouping_keys _ _ _ Hinv) as Hprops.
  pose proof (g_nodup _ _ _ Hinv) as Hnodup.
  assert (Hsub : incl (map fst props) keys).
  { intros k Hk. apply Hin, Hprops, Hk. }
  assert (Hsup : incl keys (map fst props)).
  { intros k Hk. apply Hprops, Hin, Hk. }
  pose proof (NoDup_incl_length Hnodup Hsub) as Hle.
  rewrite length_map in Hle.
  exists keys. simpl.
  rewrite (g_unique _ _ _ Hinv), (g_paths _ _ _ Hinv), <- Hlen.
  repeat split.
  - exact Hkeys.
  - lia.
  - intro Heq. apply (NoDup_incl_NoDup Hnodup); [| exact Hsub].
    rewrite length_map. lia.
  - intro Hk. pose proof (NoDup_incl_length Hk Hsup) as Hge.
    rewrite length_map in Hge. lia.
Qed.

(** C10. Newness of a key is decided by the truthiness of
    [result[vuln.id]], which also sees what a plain object inherits.
    For a first occurrence whose key names an inherited property
    ([constructor], [toString], ...) the new-group branch is not taken
    and the append fails on the missing [list]; so the grouper returns
    only if no occurrence's key names an inherited property. *)
Theorem groupVulns_inherited_key :
  (forall vuln name rest,
      keyOf vuln = Ok name -> inherited name = true ->
      groupVulns (VArr (vuln :: rest))
      = Throw (TypeError "Cannot read property 'push' of undefined"))
  /\ (forall vulns r,
         groupVulns (VArr vulns) = Ok r ->
         Forall (fun vuln => exists k, keyOf vuln = Ok k /\ inherited k = false)
           vulns)
  /\ inherited "constructor" = true
  /\ inherited "toString" = true.
Proof.
  split; [| split; [| split; reflexivity]].
  - intros vuln name rest Hkey Hinh.
    unfold groupVulns. simpl.
    rewrite groupStep_eq, Hkey. simpl.
    unfold object_prototype_get. rewrite Hinh. reflexivity.
  - intros vulns r Hr.
    destruct (groupVulns_loop vulns r Hr) as [st [props [Hinv _]]].
    apply Forall_forall. intros vuln Hvuln.
    pose proof (g_keyed _ _ _ Hinv) as Hkeyed.
    rewrite Forall_forall in Hkeyed.
    destruct (Hkeyed vuln Hvuln) as [k Hk].
    exists k. split; [exact Hk |].
    destruct (find (hasKey k) vulns) as [first |] eqn:Hfind.
    + exact (proj1 (g_present _ _ _ Hinv k first Hfind)).
    + pose proof (find_none _ _ Hfind vuln Hvuln) as Hf.
      rewrite (hasKey_of_key _ _ _ Hk), String.eqb_refl in Hf. discriminate.
Qed.

(** ** The merger *)

Lemma get_defined (v : value) (k : string) (x : value) :
  get v k = Ok x -> forall k', exists y, get v k' = Ok y.
Proof.
  intros H k'. destruct v; try discriminate H; unfold get;
    try destruct (k' =? "length")%string;
    try match goal with
        | |- context [index_lookup ?l ?i ?key] => destruct (index_lookup l i key)
        end;
    try match goal with
        | |- context [own_lookup ?p ?key] => destruct (own_lookup p key)
        end;
    eexists; reflexivity.
Qed.

Lemma js_or_num_zero (n : Z) : js_or (VNum n) (VNum 0) = VNum n.
Proof.
  unfold js_or, truthy. destruct (Z.eqb_spec n 0) as [-> | _]; reflexivity.
Qed.

(** One round of [acc + n || 0] on numbers. *)
Lemma add_or_zero (acc n : Z) :
  (sum <- js_add (VNum acc) (VNum n) ;; Ok (js_or sum (VNum 0)))
  = Ok (VNum (acc + n)).
Proof. simpl. now rewrite js_or_num_zero. Qed.

Lemma js_add_num_str (n : Z) (s : string) :
  js_add (VNum n) (VStr s) = Ok (VStr (number_to_string n ++ s)).
Proof. reflexivity. Qed.

(** C4. For two reports that each carry a vulnerability list and a
    dependency count, the merged report lists the first report's
    occurrences followed by the second's, and its dependency count is the
    sum of the two. *)
Theorem mergeData_pair (A B : value) (va vb : list value) (da db : Z) :
  get A "vulnerabilities" = Ok (VArr va) ->
  get A "dependencyCount" = Ok (VNum da) ->
  get B "vulnerabilities" = Ok (VArr vb) ->
  get B "dependencyCount" = Ok (VNum db) ->
  exists merged,
    mergeData [A; B] = Ok merged
    /\ get merged "vulnerabilities" = Ok (VArr (va ++ vb))
    /\ get merged "dependencyCount" = Ok (VNum (da + db)).
Proof.
  intros HAv HAd HBv HBd.
  destruct (get_defined _ _ _ HAv "path") as [pa Hpa].
  destruct (get_defined _ _ _ HAv "packageManager") as [ma Hma].
  destruct (get_defined _ _ _ HBv "path") as [pb Hpb].
  destruct (get_defined _ _ _ HBv "packageManager") as [mb Hmb].
  unfold mergeData. cbn [mapM foldM].
  rewrite HAv, HAd, HBv, HBd, Hpa, Hma, Hpb, Hmb. cbn [bind get].
  change ("length" =? "length")%string with true. cbn iota.
  cbn [bind]. rewrite !add_or_zero. cbn [bind].
  rewrite !add_or_zero, js_add_num_str. cbn [bind].
  eexists. split; [reflexivity |].
  split; simpl.
  - unfold js_or. simpl. now rewrite app_nil_r.
  - reflexivity.
Qed.

Lemma mergeData_pair_witness :
  exists merged,
    mergeData [ VObj [("vulnerabilities", VArr [occ_ms]);
                      ("dependencyCount", VNum 12)];
                VObj [("vulnerabilities", VArr [occ_qs; occ_ms_again]);
                      ("dependencyCount", VNum 30)] ]
    = Ok merged
    /\ get merged "vulnerabilities"
       = Ok (VArr ([occ_ms] ++ [occ_qs; occ_ms_again])%list)
    /\ get merged "dependencyCount" = Ok (VNum (12 + 30)).
Proof.
  apply mergeData_pair; reflexivity.
Defined.

(** C5. [mergeData] at two inputs with a missing field.  A report
    without a vulnerability list makes the count of line 113 read
    [length] of [undefined], although line 109 defaults the same field to
    the empty list; and a missing dependency count makes [acc + undefined]
    a NaN, which [|| 0] turns into a restart of the sum at zero. *)
Theorem mergeData_missing_fields :
  mergeData [VObj [("dependencyCount", VNum 5)]]
  = Throw (TypeError "Cannot read property 'length' of undefined")
  /\ exists merged,
      mergeData [ VObj [("vulnerabilities", VArr []); ("dependencyCount", VNum 5)];
                  VObj [("vulnerabilities", VArr [])] ]
      = Ok merged
      /\ get merged "dependencyCount" = Ok (VNum 0).
Proof.
  split; [reflexivity |]. eexists. split; reflexivity.
Qed.

(** ** The orchestrator in multi-report mode *)

Lemma js_add_primitive (a b : value) :
  primitive a = true -> primitive b = true ->
  exists s, js_add a b = Ok s /\ primitive s = true.
Proof.
  intros Ha Hb.
  destruct a as [| | [|] | na | | sa | | |]; try discriminate Ha;
    destruct b as [| | [|] | nb | | sb | | |]; try discriminate Hb;
    simpl; eexists; split; reflexivity.
Qed.

Lemma js_or_primitive (a b : value) :
  primitive a = true -> primitive b = true -> primitive (js_or a b) = true.
Proof. intros Ha Hb. unfold js_or. now destruct (truthy a). Qed.

Lemma merge_vulnsArrays (reports : list value) (lists : list (list value)) :
  Forall2 reportWith reports lists ->
  mapM (fun project =>
          v <- get project "vulnerabilities" ;; Ok (js_or v (VArr [])))
    reports
  = Ok (map VArr lists).
Proof.
  induction 1 as [| rep vs reps vss [Hv _] _ IH]; simpl.
  - reflexivity.
  - rewrite Hv. simpl. rewrite IH. reflexivity.
Qed.

Lemma merge_totalUniqueCount (reports : list value) (lists : list (list value)) :
  Forall2 reportWith reports lists ->
  forall acc : Z,
    foldM (fun acc item =>
             v <- get item "vulnerabilities" ;;
             len <- get v "length" ;;
             sum <- js_add acc len ;;
             Ok (js_or sum (VNum 0))) reports (VNum acc)
    = Ok (VNum (acc + rawCount lists)).
Proof.
  unfold rawCount.
  induction 1 as [| rep vs reps vss [Hv _] _ IH]; intro acc; simpl.
  - do 2 f_equal. lia.
  - rewrite Hv. cbn [bind get].
    change ("length" =? "length")%string with true. cbn iota. cbn [bind].
    rewrite add_or_zero. cbn [bind]. rewrite IH. do 2 f_equal. lia.
Qed.

Lemma merge_totalDepCount (reports : list value) (lists : list (list value)) :
  Forall2 reportWith reports lists ->
  forall acc : value,
    primitive acc = true ->
    exists total,
      foldM (fun acc item =>
               d <- get item "dependencyCount" ;;
               sum <- js_add acc d ;;
               Ok (js_or sum (VNum 0))) reports acc
      = Ok total.
Proof.
  induction 1 as [| rep vs reps vss [_ [d [Hd Hprim]]] _ IH];
    intros acc Hacc; simpl.
  - now exists acc.
  - rewrite Hd. cbn [bind].
    destruct (js_add_primitive acc d Hacc Hprim) as [s [Hs Hsprim]].
    rewrite Hs. cbn [bind].
    apply IH. now apply js_or_primitive.
Qed.

Lemma merge_paths (reports : list value) (lists : list (list value)) :
  Forall2 reportWith reports lists ->
  exists paths,
    mapM (fun project =>
            p <- get project "path" ;;
            pm <- get project "packageManager" ;;
            Ok (VObj [("path", p); ("packageManager", pm)])) reports
    = Ok paths.
Proof.
  induction 1 as [| rep vs reps vss [Hv _] _ [paths IH]]; simpl.
  - now exists [].
  - destruct (get_defined _ _ _ Hv "path") as [p ->].
    destruct (get_defined _ _ _ Hv "packageManager") as [pm ->].
    simpl. rewrite IH. simpl. eexists. reflexivity.
Qed.

Lemma concat_spread_arrays (lists : list (list value)) :
  concat_spread (map VArr lists) = concat lists.
Proof.
  unfold concat_spread. induction lists as [| vs vss IH]; simpl; [reflexivity |].
  now rewrite IH.
Qed.

Lemma rawCount_concat (lists : list (list value)) :
  Z.of_nat (length (concat lists)) = rawCount lists.
Proof. unfold rawCount. now rewrite length_concat. Qed.

(** What [mergeData] returns on reports that carry their lists. *)
Lemma mergeData_reports (reports : list value) (lists : list (list value)) :
  Forall2 reportWith reports lists ->
  exists total paths,
    mergeData reports
    = Ok (VObj [ ("vulnerabilities", VArr (concat lists));
                 ("uniqueCount", VNum (rawCount lists));
                 ("summary", VStr (number_to_string (rawCount lists)
                                   ++ " vulnerable dependency paths"));
                 ("dependencyCount", total);
                 ("paths", VArr paths) ]).
Proof.
  intro H. unfold mergeData.
  rewrite (merge_vulnsArrays _ _ H). cbn [bind].
  rewrite (merge_totalUniqueCount _ _ H 0). cbn [bind].
  destruct (merge_totalDepCount _ _ H (VNum 0) eq_refl) as [total ->].
  destruct (merge_paths _ _ H) as [paths ->]. cbn [bind].
  rewrite js_add_num_str, concat_spread_arrays, rawCount_concat. cbn [bind].
  exists total, paths. reflexivity.
Qed.

Lemma groupVulns_pathsCount (vulns : list value) (r : grouped) :
  groupVulns (VArr vulns) = Ok r ->
  vulnerabilitiesPathsCount r = Z.of_nat (length vulns).
Proof.
  intro Hr. destruct (groupVulns_loop vulns r Hr) as [st [props [Hinv ->]]].
  exact (g_paths _ _ _ Hinv).
Qed.

(** C8. In multi-report mode the context handed to the template carries
    both figures: its summary string names the merger's raw sum of the
    reports' list lengths, which is also the grouper's paths count over
    the merged list, and its [uniqueCount] is the grouper's count of
    groups (the merger's own [uniqueCount] and [summary] are replaced by
    the grouper's). *)
Theorem multi_report_context
    (reports : list value) (lists : list (list value)) (summary : bool) :
  Forall2 reportWith reports lists ->
  Forall groupable (concat lists) ->
  exists merged g context,
    mergeData reports = Ok merged
    /\ groupVulns (VArr (concat lists)) = Ok g
    /\ renderContext merged summary = Ok context
    /\ get merged "uniqueCount" = Ok (VNum (rawCount lists))
    /\ get context "summary"
       = Ok (VStr (number_to_string (rawCount lists)
                   ++ " vulnerable dependency paths"))
    /\ vulnerabilitiesPathsCount g = rawCount lists
    /\ get context "uniqueCount" = Ok (VNum (vulnerabilitiesUniqueCount g))
    /\ get context "vulnerabilities" = Ok (vulnerabilities g)
    /\ get context "dependencyCount" = get merged "dependencyCount"
    /\ get context "paths" = get merged "paths"
    /\ forall fs_readFile path_dirname path_join render templatePath partials,
        processData fs_readFile path_dirname path_join render
          (VArr reports) templatePath summary partials
        = (partials1 <- registerPeerPartial fs_readFile path_dirname path_join
                          templatePath "inline-css" partials ;;
           partials2 <- registerPeerPartial fs_readFile path_dirname path_join
                          templatePath "vuln-card" partials1 ;;
           htmlTemplate <- compileTemplate fs_readFile templatePath ;;
           render partials2 htmlTemplate context).
Proof.
  intros Hreports Hgroupable.
  destruct (mergeData_reports reports lists Hreports) as [total [paths Hmerged]].
  destruct (groupVulns_total _ Hgroupable) as [g Hg].
  pose proof (groupVulns_pathsCount _ _ Hg) as Hpaths.
  rewrite rawCount_concat in Hpaths.
  eexists. exists g. eexists.
  split; [exact Hmerged |]. split; [exact Hg |].
  assert (Hctx : renderContext
                   (VObj [ ("vulnerabilities", VArr (concat lists));
                           ("uniqueCount", VNum (rawCount lists));
                           ("summary", VStr (number_to_string (rawCount lists)
                                             ++ " vulnerable dependency paths"));
                           ("dependencyCount", total);
                           ("paths", VArr paths) ]) summary
                 = Ok (VObj [ ("vulnerabilities", vulnerabilities g);
                              ("uniqueCount", VNum (vulnerabilitiesUniqueCount g));
                              ("summary", VStr (number_to_string (rawCount lists)
                                                ++ " vulnerable dependency paths"));
                              ("dependencyCount", total);
                              ("paths", VArr paths);
                              ("showSummaryOnly", VBool summary) ])).
  { unfold renderContext. cbn [get own_lookup String.eqb Ascii.eqb Bool.eqb].
    cbn [bind]. rewrite Hg. cbn [bind]. rewrite js_add_num_str, Hpaths.
    reflexivity. }
  split; [exact Hctx |].
  repeat split; try reflexivity; try exact Hpaths.
  intros. unfold processData, generateTemplate. cbn [isArray elements].
  rewrite Hmerged. cbn [bind]. rewrite Hctx. reflexivity.
Qed.

(** ** The remediation resolver *)

Lemma join_with_cons2 sep elem (x y : value) (rest : list value) :
  join_with sep elem (x :: y :: rest)
  = (s <- elem x ;; r <- join_with sep elem (y :: rest) ;; Ok (s ++ sep ++ r)).
Proof. reflexivity. Qed.

Lemma join_strings (sep : string) (versions : list string) :
  join sep (map VStr versions) = Ok (String.concat sep versions).
Proof.
  induction versions as [| v rest IH]; [reflexivity |].
  destruct rest as [| v' rest]; [reflexivity |].
  unfold join in *.
  change (map VStr (v :: v' :: rest))
    with (VStr v :: VStr v' :: map VStr rest).
  rewrite join_with_cons2.
  change (map VStr (v' :: rest)) with (VStr v' :: map VStr rest) in IH.
  rewrite IH. reflexivity.
Qed.

Section RemediationProperties.

Variable marked : string -> string.

(** C6, as the code has it.  When the description contains the
    heading, the resolver returns what [marked] renders from the block of
    the description that starts at the first heading, not the block
    itself, and it does so whatever [fixedIn] is. *)
Theorem getRemediation_description_section (d : string) :
  occurs_in "## Remediation" d ->
  exists pre post,
    d = pre ++ "## Remediation" ++ post
    /\ (forall pre' post', d = pre' ++ "## Remediation" ++ post' ->
                           (String.length pre <= String.length pre')%nat)
    /\ forall fixedIn,
        getRemediation marked (VStr d) fixedIn
        = Ok (marked ("## Remediation" ++ post)).
Proof.
  intro Hocc.
  destruct (indexOf_found _ _ Hocc) as [pre [post [Hd [Hidx Hmin]]]].
  exists pre, post. split; [exact Hd | split; [exact Hmin |]].
  intro fixedIn. unfold getRemediation. cbn [call_indexOf bind].
  rewrite Hidx.
  destruct (Z.gtb_spec (Z.of_nat (String.length pre)) (-1)) as [_ | Hlt]; [| lia].
  cbn [call_substring bind]. rewrite Nat2Z.id.
  rewrite Hd at 1. now rewrite substring_from_app.
Qed.

(** C1, as the code has it.  For a description that is a string
    without the heading, a non-empty [fixedIn] list of version strings
    gives the rendering of the synthesized heading and the versions
    joined by [", "] in order, and a [fixedIn] that is not a list or is
    empty gives the rendering of the default text.  A description that
    is absent is not accepted: reading [indexOf] of it throws. *)
Theorem getRemediation_without_section (d : string) :
  ~ occurs_in "## Remediation" d ->
  (forall versions,
      versions <> [] ->
      getRemediation marked (VStr d) (VArr (map VStr versions))
      = Ok (marked ("## Remediation" ++ nl ++ " Fixed in: "
                    ++ String.concat ", " versions)))
  /\ (forall fixedIn,
         isArray fixedIn = false \/ fixedIn = VArr [] ->
         getRemediation marked (VStr d) fixedIn
         = Ok (marked defaultRemediationText))
  /\ (forall fixedIn,
         getRemediation marked VUndefined fixedIn
         = Throw (TypeError "Cannot read property 'indexOf' of undefined"))
  /\ (forall fixedIn,
         getRemediation marked VNull fixedIn
         = Throw (TypeError "Cannot read property 'indexOf' of null")).
Proof.
  intro Hnot.
  assert (Hidx : indexOf d "## Remediation" = -1) by now apply indexOf_absent.
  repeat split; try reflexivity.
  - intros versions Hne. unfold getRemediation.
    cbn [call_indexOf bind]. rewrite Hidx.
    change (-1 >? -1) with false. cbn iota.
    cbn [isArray get]. change ("length" =? "length")%string with true.
    cbn iota. cbn [bind truthy].
    destruct versions as [| v rest]; [congruence |].
    change (negb (Z.of_nat (length (map VStr (v :: rest))) =? 0)) with true.
    cbn iota. cbn [call_join]. rewrite join_strings. reflexivity.
  - intros fixedIn [Harr | ->]; unfold getRemediation;
      cbn [call_indexOf bind]; rewrite Hidx;
      change (-1 >? -1) with false; cbn iota.
    + rewrite Harr. reflexivity.
    + reflexivity.
Qed.

End RemediationProperties.

(** ** The invocation surface *)

Section RunProperties.

Variable fs_readFile : string -> result string.
Variable stdin : result string.
Variable JSON_parse : string -> result value.
Variable path_dirname : string -> string.
Variable path_join : string -> string -> string.
Variable render : registry -> template -> value -> result string.
Variable reportCallback : string -> result unit.

Lemma generateTemplate_unreadable_template data templatePath summary partials e :
  fs_readFile templatePath = Throw e ->
  exists e',
    generateTemplate fs_readFile path_dirname path_join render
      data templatePath summary partials = Throw e'.
Proof.
  intro Htpl. unfold generateTemplate.
  destruct (renderContext data summary) as [context | e0];
    [| now exists e0].
  cbn [bind]. unfold registerPeerPartial, compileTemplate, readFile.
  destruct (fs_readFile (path_join (path_dirname templatePath) _))
    as [t1 | e1]; [| now exists e1].
  cbn [bind].
  destruct (fs_readFile (path_join (path_dirname templatePath) _))
    as [t2 | e2]; [| now exists e2].
  cbn [bind]. rewrite Htpl. now exists e.
Qed.

(** C9, as the code has it.  A failure yields no rendered document:
    the callback is not called and the error is handed to
    [console.log]; a success hands the rendered document to the
    callback.  An unreadable source, an unparseable input and an
    unreadable template are failures. *)
Theorem run_outcome (source : option string) (templatePath : string)
    (summary : bool) (partials : registry) :
  let outcome :=
    runAsync fs_readFile stdin JSON_parse path_dirname path_join render
      source templatePath summary partials in
  let events :=
    run fs_readFile stdin JSON_parse path_dirname path_join render
      reportCallback source templatePath summary partials in
  (forall e, outcome = Throw e -> events = [(ConsoleLog, Throw e)])
  /\ (forall report,
         outcome = Ok report ->
         exists rest,
           events = (ReportCallback, Ok report) :: rest
           /\ Forall (fun ev => fst ev = ConsoleLog) rest)
  /\ (forall e,
         promisedString fs_readFile stdin source = Throw e ->
         outcome = Throw e)
  /\ (forall text e,
         promisedString fs_readFile stdin source = Ok text ->
         JSON_parse text = Throw e ->
         outcome = Throw e)
  /\ (forall e,
         fs_readFile templatePath = Throw e ->
         exists e', outcome = Throw e').
Proof.
  cbv zeta. unfold run, runAsync. repeat split.
  - intros e ->. reflexivity.
  - intros report ->. destruct (reportCallback report) as [u | e].
    + exists []. split; [reflexivity | constructor].
    + exists [(ConsoleLog, Throw e)]. split; [reflexivity |].
      repeat constructor.
  - intros e ->. reflexivity.
  - intros text e -> H. cbn [bind]. rewrite H. reflexivity.
  - intros e Htpl.
    destruct (promisedString fs_readFile stdin source) as [text | e0];
      [| now exists e0].
    cbn [bind]. destruct (JSON_parse text) as [data | e1]; [| now exists e1].
    cbn [bind]. unfold processData.
    destruct (if isArray data then mergeData (elements data) else Ok data)
      as [merged | e2]; [| now exists e2].
    cbn [bind]. now apply generateTemplate_unreadable_template with (e := e).
Qed.

End RunProperties.

(** ** Closed examples *)

Lemma groupVulns_metadata_first_occurrence_witness :
  groupVulns (VArr sample_vulns) = Ok sample_grouped
  /\ find (hasKey "npm:ms:20151024") sample_vulns = Some occ_ms
  /\ exists m,
      metadataForVuln occ_ms = Ok m
      /\ get (vulnerabilities sample_grouped) "npm:ms:20151024"
         = Ok (group [occ_ms; occ_ms_again] m)
      /\ get m "info" = Ok (VStr "No information available.")
      /\ get m "description" = Ok (VStr "No description available.").
Proof.
  split; [reflexivity | split; [reflexivity |]].
  destruct (proj2 (groupVulns_metadata_first_occurrence sample_vulns)
              sample_grouped "npm:ms:20151024" occ_ms eq_refl eq_refl)
    as [m [Hm [Hget [Hinfo [Hdescr _]]]]].
  exists m. repeat split.
  - exact Hm.
  - exact Hget.
  - apply Hinfo. reflexivity.
  - apply Hdescr. reflexivity.
Defined.

Lemma groupVulns_counts_witness :
  groupVulns (VArr sample_vulns) = Ok sample_grouped
  /\ exists keys,
      mapM keyOf sample_vulns = Ok keys
      /\ vulnerabilitiesPathsCount sample_grouped = 3
      /\ vulnerabilitiesUniqueCount sample_grouped
         <= vulnerabilitiesPathsCount sample_grouped
      /\ (vulnerabilitiesUniqueCount sample_grouped
          = vulnerabilitiesPathsCount sample_grouped <-> NoDup keys).
Proof.
  split; [reflexivity |].
  apply (proj2 (groupVulns_counts sample_vulns) sample_grouped). reflexivity.
Defined.

Lemma groupVulns_inherited_key_witness :
  groupVulns (VArr [occ_constructor; occ_ms])
  = Throw (TypeError "Cannot read property 'push' of undefined")
  /\ Forall (fun vuln => exists k, keyOf vuln = Ok k /\ inherited k = false)
       sample_vulns.
Proof.
  split.
  - apply (proj1 groupVulns_inherited_key occ_constructor "constructor");
      reflexivity.
  - apply (proj1 (proj2 groupVulns_inherited_key) sample_vulns sample_grouped).
    reflexivity.
Defined.

Lemma multi_report_context_witness :
  exists merged g context,
    mergeData sample_reports = Ok merged
    /\ groupVulns (VArr [occ_ms; occ_ms_again; occ_qs]) = Ok g
    /\ renderContext merged true = Ok context
    /\ get merged "uniqueCount" = Ok (VNum 3)
    /\ get context "summary" = Ok (VStr "3 vulnerable dependency paths")
    /\ get context "uniqueCount" = Ok (VNum (vulnerabilitiesUniqueCount g)).
Proof.
  assert (H1 : Forall2 reportWith sample_reports sample_lists).
  { repeat constructor; eexists; split; reflexivity. }
  assert (H2 : Forall groupable (concat sample_lists)).
  { repeat constructor; eexists; eexists; repeat split; reflexivity. }
  destruct (multi_report_context sample_reports sample_lists true H1 H2)
    as [merged [g [context [Hm [Hg [Hc [Hraw [Hsum [_ [Hu _]]]]]]]]]].
  exists merged, g, context. repeat split; assumption.
Defined.

Lemma getRemediation_description_section_witness :
  exists pre post,
    "## Overview ## Remediation" ++ nl ++ "Upgrade to 2.0.0"
    = pre ++ "## Remediation" ++ post
    /\ forall fixedIn,
        getRemediation sample_marked
          (VStr ("## Overview ## Remediation" ++ nl ++ "Upgrade to 2.0.0"))
          fixedIn
        = Ok (sample_marked ("## Remediation" ++ post)).
Proof.
  destruct (getRemediation_description_section sample_marked
              ("## Overview ## Remediation" ++ nl ++ "Upgrade to 2.0.0"))
    as [pre [post [Hd [_ Hget]]]].
  - exists "## Overview ", (nl ++ "Upgrade to 2.0.0"). reflexivity.
  - exists pre, post. split; [exact Hd | exact Hget].
Defined.

Lemma getRemediation_without_section_witness :
  getRemediation sample_marked (VStr "No description available.")
    (VArr [VStr "1.2.3"; VStr "1.2.4"])
  = Ok (sample_marked ("## Remediation" ++ nl ++ " Fixed in: 1.2.3, 1.2.4"))
  /\ getRemediation sample_marked (VStr "No description available.") (VArr [])
     = Ok (sample_marked defaultRemediationText)
  /\ getRemediation sample_marked (VStr "No description available.") VUndefined
     = Ok (sample_marked defaultRemediationText).
Proof.
  assert (H : ~ occurs_in "## Remediation" "No description available.").
  { apply indexOf_absent_iff. reflexivity. }
  destruct (getRemediation_without_section sample_marked _ H)
    as [Hfix [Hdefault _]].
  split; [| split].
  - apply (Hfix ["1.2.3"; "1.2.4"]). discriminate.
  - apply Hdefault. right. reflexivity.
  - apply Hdefault. left. reflexivity.
Defined.

(** C6 as stated fails: the description's section is returned as
    rendered by [marked], not as the block found in the description. *)
Lemma getRemediation_section_is_rendered :
  getRemediation sample_marked
    (VStr ("## Overview ## Remediation" ++ nl ++ "Upgrade to 2.0.0"))
    (VArr [VStr "2.0.0"])
  = Ok (sample_marked ("## Remediation" ++ nl ++ "Upgrade to 2.0.0"))
  /\ getRemediation sample_marked
       (VStr ("## Overview ## Remediation" ++ nl ++ "Upgrade to 2.0.0"))
       (VArr [VStr "2.0.0"])
     <> Ok ("## Remediation" ++ nl ++ "Upgrade to 2.0.0").
Proof.
  split; [reflexivity |]. intro H. discriminate H.
Qed.

(** C1 as stated fails: with an absent description the resolver
    throws instead of falling back on [fixedIn]. *)
Lemma getRemediation_absent_description_throws :
  getRemediation sample_marked VUndefined (VArr [VStr "1.2.3"; VStr "1.2.4"])
  = Throw (TypeError "Cannot read property 'indexOf' of undefined").
Proof. reflexivity. Qed.

Lemma run_outcome_witness :
  sample_run (Some "broken.json") "template/test-report.hbs" false []
  = [(ConsoleLog, Throw (SyntaxError "Unexpected end of JSON input"))]
  /\ exists rest,
      sample_run (Some "report.json") "template/test-report.hbs" false []
      = (ReportCallback, Ok "<span>0 vulnerable dependency paths</span>") :: rest
      /\ Forall (fun ev => fst ev = ConsoleLog) rest.
Proof.
  split.
  - apply (proj1 (run_outcome sample_readFile (Ok "{}") sample_parse
                    sample_dirname sample_join sample_render sample_callback
                    (Some "broken.json") "template/test-report.hbs" false [])).
    reflexivity.
  - apply (proj1 (proj2 (run_outcome sample_readFile (Ok "{}") sample_parse
                    sample_dirname sample_join sample_render sample_callback
                    (Some "report.json") "template/test-report.hbs" false []))).
    reflexivity.
Defined.

(** C9 as stated fails: on an unreadable source the callback receives
    nothing, and the error goes to [console.log]. *)
Lemma run_failure_not_delivered_to_callback :
  sample_runAsync (Some "missing.json") "template/test-report.hbs" false []
  = Throw (IOError "missing.json")
  /\ sample_run (Some "missing.json") "template/test-report.hbs" false []
     = [(ConsoleLog, Throw (IOError "missing.json"))]
  /\ ~ In (ReportCallback, Throw (IOError "missing.json"))
         (sample_run (Some "missing.json") "template/test-report.hbs" false []).
Proof.
  split; [reflexivity | split; [reflexivity |]].
  intros [H | []]. discriminate H.
Qed.

(** * Further properties of the code *)

(** ** The grouper: order, partition, malformed entries *)









Lemma filter_split_perm {A : Type} (f : A -> bool) (l : list A) :
  Permutation (filter f l ++ filter (fun a => negb (f a)) l) l.
Proof.
  induction l as [| a l IH]; simpl; [constructor |].
  destruct (f a); simpl.
  - now constructor.
  - apply Permutation_sym, Permutation_cons_app, Permutation_sym, IH.
Qed.

Lemma flat_map_ext_In {A B : Type} (f g : A -> list B) (l : list A) :
  (forall a, In a l -> f a = g a) -> flat_map f l = flat_map g l.
Proof.
  induction l as [| a l IH]; intro H; [reflexivity |]. simpl.
  rewrite (H a (or_introl eq_refl)), IH; [reflexivity |].
  intros b Hb. apply H. now right.
Qed.

(** Filing by key is a partition: when every element has exactly one
    key among the distinct [ks], the classes together are the list. *)
Lemma partition_by_key {A : Type} (p : string -> A -> bool) (ks : list string) :
  NoDup ks ->
  (forall k k' a, p k a = true -> p k' a = true -> k = k') ->
  forall l,
    (forall a, In a l -> exists k, In k ks /\ p k a = true) ->
    Permutation (flat_map (fun k => filter (p k) l) ks) l.
Proof.
  intros Hnodup Huniq. induction Hnodup as [| k ks Hnotin _ IH]; intros l Hcover.
  - destruct l as [| a l]; [constructor |].
    destruct (Hcover a (or_introl eq_refl)) as [k [[] _]].
  - simpl.
    set (l' := filter (fun a => negb (p k a)) l).
    assert (Hsame : flat_map (fun k0 => filter (p k0) l) ks
                    = flat_map (fun k0 => filter (p k0) l') ks).
    { apply flat_map_ext_In. intros k0 Hk0. unfold l'.
      assert (Hne : k0 <> k) by (intros ->; contradiction).
      clear - Huniq Hne.
      induction l as [| a l IHl]; [reflexivity |]. simpl.
      destruct (p k0 a) eqn:E0; destruct (p k a) eqn:E; simpl; rewrite ?E0.
      - exfalso. apply Hne. exact (Huniq _ _ _ E0 E).
      - now rewrite IHl.
      - exact IHl.
      - exact IHl. }
    rewrite Hsame.
    eapply Permutation_trans; [| apply (filter_split_perm (p k) l)].
    apply Permutation_app_head. apply IH. intros a Ha.
    unfold l' in Ha. apply filter_In in Ha. destruct Ha as [Ha Hneg].
    destruct (Hcover a Ha) as [k0 [[<- | Hin] Hp]].
    + rewrite Hp in Hneg. discriminate.
    + now exists k0.
Qed.

Lemma In_own_lookup props k g :
  NoDup (map fst props) -> In (k, g) props -> own_lookup props k = Some g.
Proof.
  induction props as [| [k' g'] rest IH]; simpl; [tauto |].
  intros Hnodup [Heq | Hin]; inversion Hnodup as [| ? ? Hnotin Hrest]; subst.
  - injection Heq as -> ->. now rewrite String.eqb_refl.
  - destruct (String.eqb_spec k' k) as [-> | Hne].
    + exfalso. apply Hnotin. apply (in_map fst) in Hin. exact Hin.
    + now apply IH.
Qed.

Lemma grouping_lists done st props :
  grouping done st props ->
  groupLists (VObj props)
  = flat_map (fun k => filter (hasKey k) done) (map fst props).
Proof.
  intro Hinv. simpl.
  assert (Hall : forall kv, In kv props ->
             match get (snd kv) "list" with
             | Ok l => elements l
             | Throw _ => []
             end = filter (hasKey (fst kv)) done).
  { intros [k g] Hin. simpl.
    pose proof (In_own_lookup _ _ _ (g_nodup _ _ _ Hinv) Hin) as Hown.
    destruct (find (hasKey k) done) as [first |] eqn:Hfind.
    - destruct (g_present _ _ _ Hinv k first Hfind) as [_ [m [_ Hg]]].
      rewrite Hown in Hg. injection Hg as ->. reflexivity.
    - rewrite (g_absent _ _ _ Hinv k Hfind) in Hown. discriminate. }
  clear Hinv. induction props as [| kv rest IH]; [reflexivity |]. simpl.
  rewrite (Hall kv (or_introl eq_refl)).
  f_equal. apply IH. intros kv' Hin. apply Hall. now right.
Qed.

(** X2. Grouping loses and duplicates nothing: the occurrence lists of
    the groups, taken together, are a rearrangement of the input. *)
Theorem groupVulns_partition (vulns : list value) (r : grouped) :
  groupVulns (VArr vulns) = Ok r ->
  Permutation (groupLists (vulnerabilities r)) vulns.
Proof.
  intro Hr.
  destruct (groupVulns_loop vulns r Hr) as [st [props [Hinv ->]]]. simpl vulnerabilities.
  rewrite (grouping_lists _ _ _ Hinv).
  apply partition_by_key.
  - exact (g_nodup _ _ _ Hinv).
  - intros k k' a Hk Hk'. unfold hasKey in *.
    destruct (keyOf a) as [ka | e]; [| discriminate].
    apply String.eqb_eq in Hk, Hk'. congruence.
  - intros a Ha.
    pose proof (g_keyed _ _ _ Hinv) as Hkeyed. rewrite Forall_forall in Hkeyed.
    destruct (Hkeyed a Ha) as [k Hk]. exists k.
    assert (Hh : hasKey k a = true)
      by (rewrite (hasKey_of_key _ _ _ Hk); apply String.eqb_refl).
    split; [| exact Hh].
    apply (grouping_keys _ _ _ Hinv). now exists a.
Qed.

Lemma groupVulns_partition_witness :
  Permutation (groupLists (vulnerabilities sample_grouped))
    [occ_ms; occ_qs; occ_ms_again].
Proof.
  apply (groupVulns_partition sample_vulns sample_grouped). reflexivity.
Defined.

(** X3. An entry of the list that is [null] or [undefined] aborts the
    grouping, wherever it stands: reading its [id] throws. *)
Theorem groupVulns_nullish_entry (vulns : list value) (vuln : value) :
  In vuln vulns ->
  vuln = VUndefined \/ vuln = VNull ->
  exists e, groupVulns (VArr vulns) = Throw e.
Proof.
  intros Hin Hnull.
  destruct (groupVulns (VArr vulns)) as [r | e] eqn:Hr; [| now exists e].
  exfalso.
  destruct (groupVulns_loop vulns r Hr) as [st [props [Hinv _]]].
  pose proof (g_keyed _ _ _ Hinv) as Hkeyed. rewrite Forall_forall in Hkeyed.
  destruct (Hkeyed vuln Hin) as [k Hk].
  destruct Hnull as [-> | ->]; discriminate Hk.
Qed.

Lemma groupVulns_nullish_entry_witness :
  exists e, groupVulns (VArr [occ_ms; VNull; occ_qs]) = Throw e.
Proof.
  apply (groupVulns_nullish_entry _ VNull); [right; left; reflexivity | now right].
Defined.

(** ** Metadata and the resolver *)

Lemma metadataForVuln_inv (vuln m : value) :
  metadataForVuln vuln = Ok m ->
  exists id title name info severity severityKey severityValue description
         fixedIn packageManager,
    get vuln "id" = Ok id /\ get vuln "title" = Ok title
    /\ get vuln "name" = Ok name /\ get vuln "info" = Ok info
    /\ get vuln "severity" = Ok severity
    /\ to_property_key severity = Ok severityKey
    /\ get severityMap severityKey = Ok severityValue
    /\ get vuln "description" = Ok description
    /\ get vuln "fixedIn" = Ok fixedIn
    /\ get vuln "packageManager" = Ok packageManager
    /\ m = VObj [ ("id", id); ("title", title); ("name", name);
                  ("info", js_or info (VStr "No information available."));
                  ("severity", severity); ("severityValue", severityValue);
                  ("description",
                   js_or description (VStr "No description available."));
                  ("fixedIn", fixedIn); ("packageManager", packageManager) ].
Proof.
  unfold metadataForVuln. intro H.
  repeat (let x := fresh "x" in let Hx := fresh "Hx" in
          apply bind_Ok_inv in H; destruct H as [x [Hx H]]).
  injection H as <-.
  do 10 eexists. repeat split; eassumption.
Qed.

Lemma js_or_fallback_truthy (v : value) (s : string) :
  s <> "" -> truthy (js_or v (VStr s)) = true.
Proof.
  intro Hs. unfold js_or. destruct (truthy v) eqn:E; [exact E |]. simpl.
  destruct (String.eqb_spec s ""); [contradiction | reflexivity].
Qed.

(** X4. The metadata copies [id], [title], [name], [severity],
    [fixedIn] and [packageManager] as they are read from the occurrence.
    Its [info] and [description] are the occurrence's when those are
    truthy, and the fixed texts "No information available." and
    "No description available." when they are falsy, whether missing,
    [null], empty or zero; so neither is ever falsy. *)
Theorem metadataForVuln_fields (vuln m : value) :
  metadataForVuln vuln = Ok m ->
  (forall f,
      In f ["id"; "title"; "name"; "severity"; "fixedIn"; "packageManager"] ->
      get m f = get vuln f)
  /\ (forall f v,
         In f ["info"; "description"] ->
         get vuln f = Ok v -> truthy v = true -> get m f = Ok v)
  /\ (forall v,
         get vuln "info" = Ok v -> truthy v = false ->
         get m "info" = Ok (VStr "No information available."))
  /\ (forall v,
         get vuln "description" = Ok v -> truthy v = false ->
         get m "description" = Ok (VStr "No description available."))
  /\ exists info description,
      get m "info" = Ok info /\ truthy info = true
      /\ get m "description" = Ok description /\ truthy description = true.
Proof.
  intro H.
  destruct (metadataForVuln_inv vuln m H)
    as (id & title & name & info & sev & sk & sv & descr & fixedIn & pm
        & Hid & Htitle & Hname & Hinfo & Hsev & _ & _ & Hdescr & Hfix & Hpm & ->).
  split; [| split; [| split; [| split]]].
  - intros f [<- | [<- | [<- | [<- | [<- | [<- | []]]]]]]; simpl; congruence.
  - intros f v [<- | [<- | []]] Hv Ht; simpl.
    + rewrite Hinfo in Hv. injection Hv as ->. unfold js_or. now rewrite Ht.
    + rewrite Hdescr in Hv. injection Hv as ->. unfold js_or. now rewrite Ht.
  - intros v Hv Hf. rewrite Hinfo in Hv. injection Hv as ->.
    simpl. unfold js_or. now rewrite Hf.
  - intros v Hv Hf. rewrite Hdescr in Hv. injection Hv as ->.
    simpl. unfold js_or. now rewrite Hf.
  - eexists; eexists. simpl.
    split; [reflexivity |]. split; [now apply js_or_fallback_truthy |].
    split; [reflexivity |]. now apply js_or_fallback_truthy.
Qed.

Lemma metadataForVuln_fields_witness :
  (exists m,
      metadataForVuln occ_ms_again = Ok m
      /\ get m "title" = Ok (VStr "ReDoS")
      /\ get m "info" = Ok (VStr "second path")
      /\ get m "packageManager" = Ok VUndefined)
  /\ exists m,
      metadataForVuln occ_blank = Ok m
      /\ get m "info" = Ok (VStr "No information available.")
      /\ get m "description" = Ok (VStr "No description available.").
Proof.
  split.
  - destruct (metadataForVuln occ_ms_again) as [m |] eqn:Hm; [| discriminate Hm].
    destruct (metadataForVuln_fields occ_ms_again m Hm) as [Hcopy [Hkeep _]].
    exists m. split; [reflexivity |]. split; [| split].
    + rewrite (Hcopy "title"); [reflexivity | simpl; tauto].
    + apply (Hkeep "info"); [simpl; tauto | reflexivity | reflexivity].
    + rewrite (Hcopy "packageManager"); [reflexivity | simpl; tauto].
  - destruct (metadataForVuln occ_blank) as [m |] eqn:Hm; [| discriminate Hm].
    destruct (metadataForVuln_fields occ_blank m Hm)
      as [_ [_ [Hinfo [Hdescr _]]]].
    exists m. split; [reflexivity |]. split.
    + apply (Hinfo (VStr "")); reflexivity.
    + apply (Hdescr VNull); reflexivity.
Defined.

(** X5. The severity rank is a number for the severities [low],
    [medium] and [high] only, spelled so, and then it is 0, 1 and 2. *)
Theorem metadataForVuln_severityValue (vuln m : value) (severity : string) (n : Z) :
  metadataForVuln vuln = Ok m ->
  get vuln "severity" = Ok (VStr severity) ->
  (get m "severityValue" = Ok (VNum n)
   <-> In (severity, n) [("low", 0); ("medium", 1); ("high", 2)]).
Proof.
  intros H Hsev.
  destruct (metadataForVuln_inv vuln m H)
    as (id & title & name & info & sev & sk & sv & descr & fixedIn & pm
        & _ & _ & _ & _ & Hsev' & Hsk & Hsv & _ & _ & _ & ->).
  rewrite Hsev in Hsev'. injection Hsev' as <-.
  simpl in Hsk. injection Hsk as <-.
  cbn [get own_lookup String.eqb Ascii.eqb Bool.eqb].
  unfold severityMap in Hsv. cbn [get own_lookup] in Hsv.
  destruct (String.eqb_spec "low" severity) as [<- | Hlow].
  { injection Hsv as <-. simpl. split.
    - intro Hn. injection Hn as <-. now left.
    - intros [Hp | [Hp | [Hp | []]]]; now inversion Hp. }
  destruct (String.eqb_spec "medium" severity) as [<- | Hmed].
  { injection Hsv as <-. simpl. split.
    - intro Hn. injection Hn as <-. right. now left.
    - intros [Hp | [Hp | [Hp | []]]]; now inversion Hp. }
  destruct (String.eqb_spec "high" severity) as [<- | Hhigh].
  { injection Hsv as <-. simpl. split.
    - intro Hn. injection Hn as <-. right. right. now left.
    - intros [Hp | [Hp | [Hp | []]]]; now inversion Hp. }
  injection Hsv as <-. simpl. split.
  - unfold object_prototype_get. destruct (inherited severity); discriminate.
  - intros [Hp | [Hp | [Hp | []]]]; inversion Hp; congruence.
Qed.

Lemma metadataForVuln_severityValue_witness :
  exists m,
    metadataForVuln occ_ms = Ok m /\ get m "severityValue" = Ok (VNum 1).
Proof.
  destruct (metadataForVuln occ_ms) as [m |] eqn:Hm; [| discriminate Hm].
  exists m. split; [reflexivity |].
  apply (metadataForVuln_severityValue occ_ms m "medium" 1 Hm eq_refl).
  right. now left.
Defined.

Lemma join_primitives (sep : string) (elems : list value) :
  Forall (fun x => primitive x = true) elems ->
  exists s, join sep elems = Ok s.
Proof.
  assert (Helem : forall x, primitive x = true ->
             exists s, match x with
                       | VUndefined | VNull => Ok ""
                       | _ => to_string x
                       end = Ok s).
  { intros x Hx. destruct (to_string_primitive x Hx) as [s Hs].
    destruct x; try discriminate Hx; eexists; try reflexivity; exact Hs. }
  unfold join. induction 1 as [| x rest Hx _ [r IH]].
  - now exists "".
  - destruct (Helem x Hx) as [s Hs]. destruct rest as [| y rest].
    + exists s. exact Hs.
    + rewrite join_with_cons2, Hs. cbn [bind]. rewrite IH. cbn [bind].
      eexists. reflexivity.
Qed.

Lemma getRemediation_string_ok marked (s : string) (fixedIn : value) :
  (forall elems, fixedIn = VArr elems ->
                 Forall (fun x => primitive x = true) elems) ->
  exists html, getRemediation marked (VStr s) fixedIn = Ok html.
Proof.
  intro Hfix. unfold getRemediation. cbn [call_indexOf bind].
  destruct (indexOf s "## Remediation" >? -1).
  - cbn [call_substring bind]. eexists. reflexivity.
  - destruct fixedIn; try (cbn [isArray bind truthy]; eexists; reflexivity).
    cbn [isArray get]. change ("length" =? "length")%string with true.
    cbn iota. cbn [bind truthy].
    destruct elems as [| x rest]; [eexists; reflexivity |].
    change (negb (Z.of_nat (length (x :: rest)) =? 0)) with true. cbn iota.
    cbn [call_join].
    destruct (join_primitives ", " (x :: rest) (Hfix _ eq_refl)) as [j ->].
    eexists. reflexivity.
Qed.

(** X6. The resolver accepts what the grouper stores: for an
    occurrence whose description is a string or is missing, and whose
    [fixedIn] is missing or lists primitives, applying [getRemediation]
    to the metadata's [description] and [fixedIn] returns a text. *)
Theorem getRemediation_on_metadata marked (vuln m d f : value) :
  metadataForVuln vuln = Ok m ->
  get vuln "description" = Ok d ->
  (d = VUndefined \/ d = VNull \/ exists s, d = VStr s) ->
  get vuln "fixedIn" = Ok f ->
  (forall elems, f = VArr elems -> Forall (fun x => primitive x = true) elems) ->
  exists html,
    (description <- get m "description" ;;
     fixedIn <- get m "fixedIn" ;;
     getRemediation marked description fixedIn) = Ok html.
Proof.
  intros H Hd Hshape Hf Hprim.
  destruct (metadataForVuln_inv vuln m H)
    as (id & title & name & info & sev & sk & sv & descr & fixedIn & pm
        & _ & _ & _ & _ & _ & _ & _ & Hdescr & Hfix & _ & ->).
  rewrite Hd in Hdescr. injection Hdescr as <-.
  rewrite Hf in Hfix. injection Hfix as <-.
  cbn [get own_lookup String.eqb Ascii.eqb Bool.eqb bind].
  assert (Hstr : exists s, js_or d (VStr "No description available.") = VStr s).
  { destruct Hshape as [-> | [-> | [s ->]]]; try (eexists; reflexivity).
    unfold js_or. destruct (truthy (VStr s)); eexists; reflexivity. }
  destruct Hstr as [s ->].
  now apply getRemediation_string_ok.
Qed.

Lemma getRemediation_on_metadata_witness :
  exists m html,
    metadataForVuln occ_ms = Ok m
    /\ (description <- get m "description" ;;
        fixedIn <- get m "fixedIn" ;;
        getRemediation sample_marked description fixedIn) = Ok html.
Proof.
  destruct (metadataForVuln occ_ms) as [m |] eqn:Hm; [| discriminate Hm].
  destruct (getRemediation_on_metadata sample_marked occ_ms m
              VUndefined (VArr [VStr "0.7.1"]) Hm eq_refl
              (or_introl eq_refl) eq_refl) as [html Hhtml].
  - intros elems Heq. injection Heq as <-. repeat constructor.
  - exists m, html. split; [reflexivity | exact Hhtml].
Defined.

(** X7. Whatever the resolver returns is the rendering of a text that
    begins with the heading [## Remediation]. *)
Theorem getRemediation_heading marked (description fixedIn : value) (html : string) :
  getRemediation marked description fixedIn = Ok html ->
  exists text, html = marked text /\ prefix "## Remediation" text = true.
Proof.
  unfold getRemediation. intro H.
  apply bind_Ok_inv in H. destruct H as [index [Hindex H]].
  destruct (index >? -1) eqn:Hgt.
  - apply bind_Ok_inv in H. destruct H as [block [Hblock H]].
    injection H as <-. exists block. split; [reflexivity |].
    destruct description; try discriminate Hblock.
    simpl in Hindex, Hblock. injection Hindex as <-. injection Hblock as <-.
    unfold indexOf in *.
    destruct (indexOf_from_spec "## Remediation" s 0)
      as [[Hr _] | [[pre [post [Hs [Hr _]]]] | Hlt]]; [| | lia].
    + rewrite Hr in Hgt. discriminate.
    + rewrite Hr. simpl Z.add. rewrite Nat2Z.id.
      rewrite Hs, substring_from_app.
      apply prefix_app. now exists post.
  - apply bind_Ok_inv in H. destruct H as [hasFix [_ H]].
    destruct (truthy hasFix).
    + apply bind_Ok_inv in H. destruct H as [joined [_ H]].
      injection H as <-. eexists. split; [reflexivity |].
      apply prefix_app. eexists. reflexivity.
    + injection H as <-. eexists. split; [reflexivity |].
      apply prefix_app. eexists. reflexivity.
Qed.

Lemma getRemediation_heading_witness :
  exists text,
    sample_marked ("## Remediation" ++ nl ++ " Fixed in: 0.7.1")
    = sample_marked text
    /\ prefix "## Remediation" text = true.
Proof.
  apply (getRemediation_heading sample_marked (VStr "## Overview")
           (VArr [VStr "0.7.1"])).
  reflexivity.
Defined.

(** ** The merger on any number of reports *)

Lemma foldM_app {A S : Type} (step : S -> A -> result S) (l l' : list A) (s : S) :
  foldM step (l ++ l')%list s = (s' <- foldM step l s ;; foldM step l' s').
Proof.
  revert s. induction l as [| x l IH]; intro s; simpl.
  - destruct (foldM step l' s); reflexivity.
  - destruct (step s x) as [s1 | e]; simpl; [apply IH | reflexivity].
Qed.

Lemma foldM_throws {A S : Type} (step : S -> A -> result S) (l : list A) (a : A) :
  In a l ->
  (forall s, exists e, step s a = Throw e) ->
  forall s, exists e, foldM step l s = Throw e.
Proof.
  intros Hin Ha. induction l as [| x l IH]; [destruct Hin |]. intro s. simpl.
  destruct Hin as [-> | Hin].
  - destruct (Ha s) as [e ->]. now exists e.
  - destruct (step s x) as [s1 | e]; [apply (IH Hin) | now exists e].
Qed.

Lemma merge_paths_entries (reports : list value) (lists : list (list value)) :
  Forall2 reportWith reports lists ->
  exists paths,
    mapM (fun project =>
            p <- get project "path" ;;
            pm <- get project "packageManager" ;;
            Ok (VObj [("path", p); ("packageManager", pm)])) reports
    = Ok paths
    /\ Forall2 (fun report entry =>
                  exists p pm,
                    get report "path" = Ok p
                    /\ get report "packageManager" = Ok pm
                    /\ entry = VObj [("path", p); ("packageManager", pm)])
         reports paths.
Proof.
  induction 1 as [| rep vs reps vss [Hv _] _ [paths [IH Hall]]]; simpl.
  - exists []. split; [reflexivity | constructor].
  - destruct (get_defined _ _ _ Hv "path") as [p Hp].
    destruct (get_defined _ _ _ Hv "packageManager") as [pm Hpm].
    rewrite Hp, Hpm. simpl. rewrite IH. simpl.
    eexists. split; [reflexivity |].
    constructor; [| exact Hall]. now exists p, pm.
Qed.

Lemma mergeData_with_total (reports : list value) (lists : list (list value))
    (total : value) :
  Forall2 reportWith reports lists ->
  foldM (fun acc item =>
           d <- get item "dependencyCount" ;;
           sum <- js_add acc d ;;
           Ok (js_or sum (VNum 0))) reports (VNum 0) = Ok total ->
  exists paths,
    mergeData reports
    = Ok (VObj [ ("vulnerabilities", VArr (concat lists));
                 ("uniqueCount", VNum (rawCount lists));
                 ("summary", VStr (number_to_string (rawCount lists)
                                   ++ " vulnerable dependency paths"));
                 ("dependencyCount", total);
                 ("paths", VArr paths) ])
    /\ Forall2 (fun report entry =>
                  exists p pm,
                    get report "path" = Ok p
                    /\ get report "packageManager" = Ok pm
                    /\ entry = VObj [("path", p); ("packageManager", pm)])
         reports paths.
Proof.
  intros H Htotal. unfold mergeData.
  rewrite (merge_vulnsArrays _ _ H). cbn [bind].
  rewrite (merge_totalUniqueCount _ _ H 0). cbn [bind].
  rewrite Htotal. cbn [bind].
  destruct (merge_paths_entries _ _ H) as [paths [-> Hentries]]. cbn [bind].
  rewrite js_add_num_str, concat_spread_arrays, rawCount_concat. cbn [bind].
  exists paths. split; [reflexivity | exact Hentries].
Qed.

Lemma merge_depCount_numbers (reports : list value) (counts : list Z) :
  Forall2 (fun r n => get r "dependencyCount" = Ok (VNum n)) reports counts ->
  forall acc,
    foldM (fun acc item =>
             d <- get item "dependencyCount" ;;
             sum <- js_add acc d ;;
             Ok (js_or sum (VNum 0))) reports (VNum acc)
    = Ok (VNum (acc + fold_right Z.add 0 counts)).
Proof.
  induction 1 as [| r n rs ns Hr _ IH]; intro acc; simpl.
  - do 2 f_equal. lia.
  - rewrite Hr. cbn [bind]. rewrite add_or_zero. cbn [bind].
    rewrite IH. do 2 f_equal. lia.
Qed.

(** X8. For any number of reports that each carry a vulnerability list
    and a numeric dependency count, the merged report lists the
    occurrences report after report, counts them in [uniqueCount] and in
    the summary string, sums the dependency counts, and holds one
    [path]/[packageManager] pair per report in report order. *)
Theorem mergeData_counted_reports (reports : list value)
    (lists : list (list value)) (counts : list Z) :
  Forall2 (fun r vs => get r "vulnerabilities" = Ok (VArr vs)) reports lists ->
  Forall2 (fun r n => get r "dependencyCount" = Ok (VNum n)) reports counts ->
  exists paths,
    mergeData reports
    = Ok (VObj [ ("vulnerabilities", VArr (concat lists));
                 ("uniqueCount", VNum (rawCount lists));
                 ("summary", VStr (number_to_string (rawCount lists)
                                   ++ " vulnerable dependency paths"));
                 ("dependencyCount", VNum (fold_right Z.add 0 counts));
                 ("paths", VArr paths) ])
    /\ Forall2 (fun report entry =>
                  exists p pm,
                    get report "path" = Ok p
                    /\ get report "packageManager" = Ok pm
                    /\ entry = VObj [("path", p); ("packageManager", pm)])
         reports paths.
Proof.
  intros Hlists Hcounts.
  assert (Hwith : Forall2 reportWith reports lists).
  { clear - Hlists Hcounts. revert counts Hcounts.
    induction Hlists as [| r vs rs vss Hv _ IH]; intros counts Hcounts;
      [constructor |].
    inversion Hcounts as [| ? n ? ns Hn Hrest]; subst.
    constructor; [| exact (IH _ Hrest)].
    split; [exact Hv |]. exists (VNum n). now split. }
  apply (mergeData_with_total _ _ _ Hwith).
  now rewrite (merge_depCount_numbers _ _ Hcounts 0).
Qed.

Lemma mergeData_counted_reports_witness :
  exists paths,
    mergeData [report_app; report_lib]
    = Ok (VObj [ ("vulnerabilities", VArr [occ_ms; occ_ms_again; occ_qs]);
                 ("uniqueCount", VNum 3);
                 ("summary", VStr "3 vulnerable dependency paths");
                 ("dependencyCount", VNum 42);
                 ("paths", VArr paths) ])
    /\ length paths = 2%nat.
Proof.
  destruct (mergeData_counted_reports [report_app; report_lib]
              [[occ_ms; occ_ms_again]; [occ_qs]] [12; 30])
    as [paths [Hmerged Hentries]].
  - repeat constructor.
  - repeat constructor.
  - exists paths. split; [exact Hmerged |].
    apply Forall2_length in Hentries. symmetry. exact Hentries.
Defined.

(** X9. One report whose list cannot be measured makes the whole merge
    throw, wherever the report stands and whatever the others hold. *)
Theorem mergeData_lacking_list (reports : list value) (report : value) :
  In report reports ->
  lacksList report ->
  exists e, mergeData reports = Throw e.
Proof.
  intros Hin Hlack. unfold mergeData.
  destruct (mapM _ reports) as [vulnsArrays | e]; [| now exists e].
  cbn [bind].
  destruct (foldM_throws
              (fun acc item =>
                 v <- get item "vulnerabilities" ;;
                 len <- get v "length" ;;
                 sum <- js_add acc len ;;
                 Ok (js_or sum (VNum 0))) reports report Hin) with (s := VNum 0)
    as [e He].
  - intro acc.
    destruct Hlack as [-> | [-> | [-> | ->]]]; eexists; reflexivity.
  - rewrite He. now exists e.
Qed.

Lemma mergeData_lacking_list_witness :
  exists e,
    mergeData [report_app; VObj [("path", VStr "empty")]; report_lib] = Throw e.
Proof.
  apply (mergeData_lacking_list _ (VObj [("path", VStr "empty")])).
  - right. left. reflexivity.
  - right. right. left. reflexivity.
Defined.

Lemma merge_depCount_number_or_missing (reports : list value) :
  Forall countOrMissing reports ->
  forall acc, exists total,
    foldM (fun acc item =>
             d <- get item "dependencyCount" ;;
             sum <- js_add acc d ;;
             Ok (js_or sum (VNum 0))) reports (VNum acc)
    = Ok (VNum total).
Proof.
  induction 1 as [| r rs [Hr | [n Hr]] _ IH]; intro acc; simpl.
  - now exists acc.
  - rewrite Hr. apply IH.
  - rewrite Hr. cbn [bind]. rewrite add_or_zero. apply IH.
Qed.

(** X10. A report without a dependency count does not count as zero:
    it restarts the sum, so the merged dependency count is the sum over
    the reports that follow the last such report. *)
Theorem mergeData_dependencyCount_restart
    (before after : list value) (report : value)
    (lists : list (list value)) (counts : list Z) :
  Forall2 reportWith (before ++ report :: after) lists ->
  Forall countOrMissing before ->
  get report "dependencyCount" = Ok VUndefined ->
  Forall2 (fun r n => get r "dependencyCount" = Ok (VNum n)) after counts ->
  exists merged,
    mergeData (before ++ report :: after) = Ok merged
    /\ get merged "dependencyCount" = Ok (VNum (fold_right Z.add 0 counts)).
Proof.
  intros Hwith Hbefore Hreport Hafter.
  destruct (merge_depCount_number_or_missing _ Hbefore 0) as [acc Hacc].
  destruct (mergeData_with_total _ _ (VNum (fold_right Z.add 0 counts)) Hwith)
    as [paths [Hmerged _]].
  - rewrite foldM_app, Hacc. cbn [bind foldM]. rewrite Hreport. cbn [bind].
    change (js_add (VNum acc) VUndefined) with (@Ok value VNaN). cbn [bind].
    change (js_or VNaN (VNum 0)) with (VNum 0).
    now rewrite (merge_depCount_numbers _ _ Hafter 0).
  - eexists. split; [exact Hmerged | reflexivity].
Qed.

Lemma mergeData_dependencyCount_restart_witness :
  exists merged,
    mergeData [report_app; report_uncounted; report_lib] = Ok merged
    /\ get merged "dependencyCount" = Ok (VNum 30).
Proof.
  apply (mergeData_dependencyCount_restart [report_app] [report_lib]
           report_uncounted [[occ_ms; occ_ms_again]; []; [occ_qs]] [30]).
  - repeat constructor; eexists; split; reflexivity.
  - constructor; [right; now exists 12 | constructor].
  - reflexivity.
  - repeat constructor.
Defined.

(** ** The render context *)

Lemma set_Ok_inv (v : value) (k : string) (x v' : value) :
  set v k x = Ok v' ->
  exists props, v = VObj props /\ v' = VObj (own_set props k x).
Proof.
  destruct v; try discriminate. simpl. intro H. injection H as <-.
  now exists props.
Qed.

Lemma renderContext_inv (data : value) (summary : bool) (context : value) :
  renderContext data summary = Ok context ->
  exists props vulns g,
    data = VObj props
    /\ get data "vulnerabilities" = Ok vulns
    /\ groupVulns vulns = Ok g
    /\ context
       = VObj (own_set
                 (own_set
                    (own_set
                       (own_set props "vulnerabilities" (vulnerabilities g))
                       "uniqueCount" (VNum (vulnerabilitiesUniqueCount g)))
                    "summary"
                    (VStr (number_to_string (vulnerabilitiesPathsCount g)
                           ++ " vulnerable dependency paths")))
                 "showSummaryOnly" (VBool summary)).
Proof.
  unfold renderContext. intro H.
  apply bind_Ok_inv in H. destruct H as [vulns [Hvulns H]].
  apply bind_Ok_inv in H. destruct H as [g [Hg H]].
  apply bind_Ok_inv in H. destruct H as [data1 [H1 H]].
  apply bind_Ok_inv in H. destruct H as [data2 [H2 H]].
  rewrite js_add_num_str in H. cbn [bind] in H.
  apply bind_Ok_inv in H. destruct H as [data3 [H3 H]].
  apply set_Ok_inv in H1. destruct H1 as [props [-> ->]].
  simpl in H2. injection H2 as <-.
  simpl in H3. injection H3 as <-.
  simpl in H. injection H as <-.
  exists props, vulns, g. repeat split; assumption.
Qed.

(** X11. Every member of the report other than the four that
    [generateTemplate] writes reaches the template as it was. *)
Theorem renderContext_passes_members (data : value) (summary : bool)
    (context : value) (k : string) :
  renderContext data summary = Ok context ->
  ~ In k contextMembers ->
  get context k = get data k.
Proof.
  intros H Hk.
  destruct (renderContext_inv _ _ _ H) as (props & vulns & g & -> & _ & _ & ->).
  unfold contextMembers in Hk. simpl in Hk.
  rewrite !get_object.
  rewrite !own_lookup_set_other by (intro; subst; tauto).
  reflexivity.
Qed.

Lemma renderContext_passes_members_witness :
  exists context,
    renderContext report_single false = Ok context
    /\ get context "dependencyCount" = Ok (VNum 42)
    /\ get context "path" = Ok (VStr "app").
Proof.
  destruct (renderContext report_single false) as [context |] eqn:H;
    [| discriminate H].
  exists context. split; [reflexivity |]. split.
  - rewrite (renderContext_passes_members _ _ _ "dependencyCount" H);
      [reflexivity |].
    intros [E | [E | [E | [E | []]]]]; discriminate E.
  - rewrite (renderContext_passes_members _ _ _ "path" H); [reflexivity |].
    intros [E | [E | [E | [E | []]]]]; discriminate E.
Defined.

(** X12. The four members written are the grouper's results over the
    report's own list: the grouped mapping, its unique count, its paths
    count in the summary string, and the caller's flag; what the report
    held under these names before is replaced. *)
Theorem renderContext_members (data : value) (summary : bool) (context : value) :
  renderContext data summary = Ok context ->
  exists vulns g,
    get data "vulnerabilities" = Ok vulns
    /\ groupVulns vulns = Ok g
    /\ get context "vulnerabilities" = Ok (vulnerabilities g)
    /\ get context "uniqueCount" = Ok (VNum (vulnerabilitiesUniqueCount g))
    /\ get context "summary"
       = Ok (VStr (number_to_string (vulnerabilitiesPathsCount g)
                   ++ " vulnerable dependency paths"))
    /\ get context "showSummaryOnly" = Ok (VBool summary).
Proof.
  intro H.
  destruct (renderContext_inv _ _ _ H) as (props & vulns & g & -> & Hv & Hg & ->).
  exists vulns, g. split; [exact Hv |]. split; [exact Hg |].
  rewrite !get_object.
  repeat split;
    repeat (first [ rewrite own_lookup_set_same
                  | rewrite own_lookup_set_other by discriminate ]);
    reflexivity.
Qed.

Lemma renderContext_members_witness :
  exists context,
    renderContext report_single true = Ok context
    /\ get context "uniqueCount" = Ok (VNum 2)
    /\ get context "summary" = Ok (VStr "3 vulnerable dependency paths")
    /\ get context "showSummaryOnly" = Ok (VBool true).
Proof.
  destruct (renderContext report_single true) as [context |] eqn:H;
    [| discriminate H].
  destruct (renderContext_members _ _ _ H)
    as (vulns & g & Hv & Hg & _ & Hu & Hs & Hf).
  vm_compute in Hv. injection Hv as <-.
  vm_compute in Hg. injection Hg as <-.
  exists context. split; [reflexivity |].
  split; [exact Hu | split; [exact Hs | exact Hf]].
Defined.

(** X13. A single report is always assembled when its list holds
    groupable occurrences or is no list at all, and its summary counts
    the occurrences of the list, none when there is no list. *)
Theorem renderContext_single_report (props : list (string * value))
    (summary : bool) (vulns : value) :
  get (VObj props) "vulnerabilities" = Ok vulns ->
  isArray vulns = false \/ Forall groupable (elements vulns) ->
  exists context,
    renderContext (VObj props) summary = Ok context
    /\ get context "summary"
       = Ok (VStr (number_to_string (Z.of_nat (length (elements vulns)))
                   ++ " vulnerable dependency paths")).
Proof.
  intros Hv Hshape.
  assert (Hg : exists g, groupVulns vulns = Ok g
                         /\ vulnerabilitiesPathsCount g
                            = Z.of_nat (length (elements vulns))).
  { destruct (isArray vulns) eqn:Harr.
    - destruct vulns; try discriminate Harr.
      destruct Hshape as [Hno | Hall]; [discriminate Hno |].
      destruct (groupVulns_total _ Hall) as [g Hg].
      exists g. split; [exact Hg | exact (groupVulns_pathsCount _ _ Hg)].
    - eexists. unfold groupVulns. rewrite Harr, andb_false_r.
      split; [reflexivity |].
      destruct vulns; try reflexivity. discriminate Harr. }
  destruct Hg as [g [Hg Hpaths]].
  unfold renderContext. rewrite Hv. cbn [bind]. rewrite Hg. cbn [bind set].
  rewrite js_add_num_str. cbn [bind]. rewrite Hpaths.
  eexists. split; [reflexivity |].
  rewrite get_object.
  rewrite own_lookup_set_other by discriminate.
  now rewrite own_lookup_set_same.
Qed.

Lemma renderContext_single_report_witness :
  exists context,
    renderContext (VObj [("path", VStr "app")]) false = Ok context
    /\ get context "summary" = Ok (VStr "0 vulnerable dependency paths").
Proof.
  apply (renderContext_single_report [("path", VStr "app")] false VUndefined).
  - reflexivity.
  - left. reflexivity.
Defined.

(** ** Loading the partials *)

Lemma lookupPartial_register_same name t partials :
  lookupPartial name (registerPartial name t partials) = Some t.
Proof.
  induction partials as [| [n t'] rest IH]; simpl.
  - now rewrite String.eqb_refl.
  - destruct (n =? name)%string eqn:E; simpl; rewrite E; [reflexivity | exact IH].
Qed.

Lemma lookupPartial_register_other name t partials name0 :
  name0 <> name ->
  lookupPartial name0 (registerPartial name t partials)
  = lookupPartial name0 partials.
Proof.
  intro Hne. induction partials as [| [n t'] rest IH]; simpl.
  - destruct (String.eqb_spec name name0); [congruence | reflexivity].
  - destruct (String.eqb_spec n name) as [-> | Hn]; simpl.
    + destruct (String.eqb_spec name name0); [congruence | reflexivity].
    + now rewrite IH.
Qed.

(** X14. When the context is assembled and the three files are
    readable, the template is applied with the two partials taken from
    the files [test-report.inline-css.hbs] and [test-report.vuln-card.hbs]
    beside the template, registered under [inline-css] and [vuln-card];
    what was registered under other names stays. *)
Theorem generateTemplate_partials
    (fs_readFile : string -> result string)
    (path_dirname : string -> string) (path_join : string -> string -> string)
    (render : registry -> template -> value -> result string)
    (data : value) (templatePath : string) (summary : bool)
    (partials : registry) (context : value) (css card html : string) :
  renderContext data summary = Ok context ->
  fs_readFile (path_join (path_dirname templatePath) "test-report.inline-css.hbs")
  = Ok css ->
  fs_readFile (path_join (path_dirname templatePath) "test-report.vuln-card.hbs")
  = Ok card ->
  fs_readFile templatePath = Ok html ->
  exists registered,
    generateTemplate fs_readFile path_dirname path_join render
      data templatePath summary partials
    = render registered html context
    /\ lookupPartial "inline-css" registered = Some css
    /\ lookupPartial "vuln-card" registered = Some card
    /\ forall name, name <> "inline-css" -> name <> "vuln-card" ->
                    lookupPartial name registered = lookupPartial name partials.
Proof.
  intros Hctx Hcss Hcard Hhtml.
  exists (registerPartial "vuln-card" card
            (registerPartial "inline-css" css partials)).
  split; [| split; [| split]].
  - unfold generateTemplate, registerPeerPartial, compileTemplate, readFile.
    rewrite Hctx. cbn [bind].
    change ("test-report." ++ "inline-css" ++ ".hbs")
      with "test-report.inline-css.hbs".
    change ("test-report." ++ "vuln-card" ++ ".hbs")
      with "test-report.vuln-card.hbs".
    rewrite Hcss. cbn [bind]. rewrite Hcard. cbn [bind]. rewrite Hhtml.
    reflexivity.
  - rewrite lookupPartial_register_other by discriminate.
    apply lookupPartial_register_same.
  - apply lookupPartial_register_same.
  - intros name H1 H2. now rewrite !lookupPartial_register_other.
Qed.

Lemma generateTemplate_partials_witness :
  exists registered,
    generateTemplate sample_readFile sample_dirname sample_join sample_render
      report_single "template/test-report.hbs" false [("inline-css", "old")]
    = sample_render registered "{{summary}}"
        match renderContext report_single false with
        | Ok context => context
        | Throw _ => VUndefined
        end
    /\ lookupPartial "inline-css" registered = Some "css"
    /\ lookupPartial "vuln-card" registered = Some "card".
Proof.
  destruct (generateTemplate_partials sample_readFile sample_dirname sample_join
              sample_render report_single "template/test-report.hbs" false
              [("inline-css", "old")]
              match renderContext report_single false with
              | Ok context => context
              | Throw _ => VUndefined
              end "css" "card" "{{summary}}")
    as [registered [Hgen [Hcss [Hcard _]]]]; try reflexivity.
  exists registered. split; [exact Hgen | split; [exact Hcss | exact Hcard]].
Defined.

(** ** Reading the standard input *)

Lemma string_app_assoc (a b c : string) : ((a ++ b) ++ c = a ++ (b ++ c))%string.
Proof. induction a as [| x a IH]; simpl; [reflexivity | now rewrite IH]. Qed.

Lemma string_app_nil_r (a : string) : (a ++ "" = a)%string.
Proof. induction a as [| x a IH]; simpl; [reflexivity | now rewrite IH]. Qed.

Lemma stdin_reads (chunks : list (option string)) (s : string) :
  fold_left Stdin.onEvent (map Stdin.Readable chunks) (Stdin.mkState s None)
  = Stdin.mkState (s ++ received chunks) None.
Proof.
  revert s. induction chunks as [| [c |] rest IH]; intro s; simpl.
  - now rewrite string_app_nil_r.
  - rewrite IH. now rewrite string_app_assoc.
  - apply IH.
Qed.

Lemma stdin_settled (events : list Stdin.streamEvent) (s : string)
    (outcome : result string) :
  Stdin.settled (fold_left Stdin.onEvent events (Stdin.mkState s (Some outcome)))
  = Some outcome.
Proof.
  revert s. induction events as [| ev rest IH]; intro s; [reflexivity |].
  simpl. destruct ev as [[c |] | e |]; apply IH.
Qed.

(** X15. The promise of [readInputFromStdin] is settled by the first
    [end] or [error] of the stream and by nothing later: an [end] resolves
    it with the chunks read so far, concatenated in arrival order with
    the empty reads left out, an [error] rejects it, and without either
    it stays pending. *)
Theorem readInputFromStdin_outcome (chunks : list (option string))
    (rest : list Stdin.streamEvent) :
  Stdin.readInputFromStdin (map Stdin.Readable chunks ++ Stdin.StreamEnd :: rest)
  = Some (Ok (received chunks))
  /\ (forall e,
         Stdin.readInputFromStdin
           (map Stdin.Readable chunks ++ Stdin.StreamError e :: rest)
         = Some (Throw e))
  /\ Stdin.readInputFromStdin (map Stdin.Readable chunks) = None.
Proof.
  unfold Stdin.readInputFromStdin. repeat split; intros;
    rewrite ?fold_left_app, stdin_reads; simpl;
    try apply stdin_settled; reflexivity.
Qed.

(** ** The helpers [count] and [isDoubleArray] *)

(** X16. [count] never throws: a falsy value, [undefined] and [null]
    among them, is returned as it is, and an array or a non-empty string
    gives its length. *)
Theorem count_total (data : value) :
  (exists v, count data = Ok v)
  /\ (truthy data = false -> count data = Ok data)
  /\ (forall elems, data = VArr elems ->
                    count data = Ok (VNum (Z.of_nat (length elems))))
  /\ (forall s, data = VStr s -> s <> "" ->
                count data = Ok (VNum (Z.of_nat (String.length s)))).
Proof.
  unfold count. repeat split.
  - destruct (truthy data) eqn:Ht; [| now exists data].
    destruct data; try discriminate Ht; unfold get;
      try destruct ("length" =? "length")%string;
      try match goal with
          | |- context [index_lookup ?l ?i ?key] => destruct (index_lookup l i key)
          end;
      try match goal with
          | |- context [own_lookup ?p ?key] => destruct (own_lookup p key)
          end;
      eexists; reflexivity.
  - intros ->. reflexivity.
  - intros elems ->. reflexivity.
  - intros s -> Hs. simpl.
    destruct (String.eqb_spec s ""); [contradiction | reflexivity].
Qed.

Lemma count_total_witness :
  count VUndefined = Ok VUndefined
  /\ count (VArr [occ_ms; occ_qs]) = Ok (VNum 2)
  /\ count (VStr "abc") = Ok (VNum 3).
Proof.
  split; [| split].
  - apply (proj1 (proj2 (count_total VUndefined))). reflexivity.
  - exact (proj1 (proj2 (proj2 (count_total (VArr [occ_ms; occ_qs]))))
             [occ_ms; occ_qs] eq_refl).
  - apply (proj2 (proj2 (proj2 (count_total (VStr "abc")))) "abc" eq_refl).
    discriminate.
Defined.

(** X17. [isDoubleArray] renders the block when the first element of
    the array is itself an array and the [else] part otherwise, an empty
    array included; a string, a number or a boolean gets the [else] part,
    and on [undefined] or [null] the helper throws. *)
Theorem isDoubleArray_choice (options : blockOptions) :
  (forall first rest,
      isDoubleArray (VArr (first :: rest)) options
      = if isArray first then opt_fn options (VArr (first :: rest))
        else opt_inverse options (VArr (first :: rest)))
  /\ isDoubleArray (VArr []) options = opt_inverse options (VArr [])
  /\ (forall data,
         primitive data = true -> data <> VUndefined -> data <> VNull ->
         isDoubleArray data options = opt_inverse options data)
  /\ (exists msg, isDoubleArray VUndefined options = Throw (TypeError msg))
  /\ (exists msg, isDoubleArray VNull options = Throw (TypeError msg)).
Proof.
  split; [reflexivity |]. split; [reflexivity |].
  split; [| split; eexists; reflexivity].
  intros data Hprim Hu Hn. unfold isDoubleArray.
  destruct data; try discriminate Hprim; try contradiction; try reflexivity.
  cbn [get]. change ("0" =? "length")%string with false. cbn iota.
  destruct (index_lookup (list_ascii_of_string s) 0 "0"); reflexivity.
Qed.

Lemma isDoubleArray_choice_witness :
  isDoubleArray (VStr "rows") sample_options = Ok "one row"
  /\ isDoubleArray (VArr [VArr [occ_ms]; VArr []]) sample_options
     = Ok "rows of rows".
Proof.
  split.
  - apply (proj1 (proj2 (proj2 (isDoubleArray_choice sample_options))));
      [reflexivity | discriminate | discriminate].
  - exact (proj1 (isDoubleArray_choice sample_options) (VArr [occ_ms]) [VArr []]).
Defined.
